(** * jRna: a shallow embedding of [js/jrna.js]

    The blueprint object built by [new jRna()], its builder methods, the
    sticky state machine, the callback resolver and [attach] are embedded
    as functions over explicit state.  A method that can throw returns a
    result that still carries the state reached at the throw, because the
    JavaScript objects it mutated stay mutated. *)

From stdpp Require Import gmap strings list pretty.
From Stdlib Require Import ZArith Lia Ascii String.

Open Scope string_scope.
Open Scope Z_scope.

(** ** JavaScript values *)

Module Js.

(** The integers a number holds exactly and prints digit by digit:
    those of magnitude up to 2^53. *)
Definition exact (z : Z) : bool := (- 2 ^ 53 <=? z) && (z <=? 2 ^ 53).

Record Int := mkInt { int_val : Z; int_exact : Is_true (exact int_val) }.

#[global] Instance Int_eq_dec : EqDecision Int.
Proof.
  intros [a Ha] [b Hb]. destruct (decide (a = b)) as [->|N].
  - left. f_equal. apply proof_irrel.
  - right. congruence.
Defined.

(** Primitive values.  A number is [NaN] or an exact integer; fractions,
    infinities and the integers beyond 2^53 are outside the value
    model. *)
Inductive Prim :=
  | PUndef
  | PNull
  | PBool (b : bool)
  | PNum (n : Int)
  | PNaN
  | PStr (s : string).

(** A value is a primitive, an object that is not callable, or a
    function; objects and functions are known by their reference only. *)
Inductive Val :=
  | VP (p : Prim)
  | VO (ref : nat)
  | VF (ref : nat).

#[global] Instance Prim_eq_dec : EqDecision Prim.
Proof. solve_decision. Defined.

#[global] Instance Val_eq_dec : EqDecision Val.
Proof. solve_decision. Defined.

Definition undefined : Val := VP PUndef.
Definition VStr (s : string) : Val := VP (PStr s).
Definition NaN : Val := VP PNaN.
Definition VBool (b : bool) : Val := VP (PBool b).
Definition VNull : Val := VP PNull.

(** The number [z], for the literals of the examples; an integer that
    is not exact has no value in the model and reads as [NaN]. *)
Definition VNum (z : Z) : Val :=
  (if exact z as b return (Is_true b -> Val) -> Val
   then fun k => k I else fun _ => NaN)
    (fun H => VP (PNum (mkInt z H))).

(** [typeof v == 'undefined'] *)
Definition is_undefined (v : Val) : bool :=
  match v with VP PUndef => true | _ => false end.

(** ToBoolean *)
Definition truthy (v : Val) : bool :=
  match v with
  | VP PUndef | VP PNull => false
  | VP (PBool b) => b
  | VP (PNum n) => negb (int_val n =? 0)
  | VP PNaN => false
  | VP (PStr s) => negb (String.eqb s "")
  | VO _ | VF _ => true
  end.

(** [typeof v === 'function'] *)
Definition is_function (v : Val) : bool :=
  match v with VF _ => true | _ => false end.

(** [typeof v === 'string'] *)
Definition is_string (v : Val) : bool :=
  match v with VP (PStr _) => true | _ => false end.

(** [a || b] *)
Definition or_else (a b : Val) : Val := if truthy a then a else b.

(** [a === b]: identity, except that [NaN] equals nothing. *)
Definition strict_eq (a b : Val) : bool :=
  match a with
  | VP PNaN => false
  | _ => bool_decide (a = b)
  end.

(** ToString of a primitive. *)
Definition prim_to_string (p : Prim) : string :=
  match p with
  | PUndef => "undefined"
  | PNull => "null"
  | PBool true => "true"
  | PBool false => "false"
  | PNum n => pretty (int_val n)
  | PNaN => "NaN"
  | PStr s => s
  end.

Section Coercions.

(** The two conversions the engine implements natively: a string read
    as a number ([None] when the result is not an integer: [NaN], a
    fraction, an infinity) and an object turned into a primitive. *)
Variable StringToNumber : string -> option Z.
Variable ToPrimitive : Val -> Prim.

Definition to_prim (v : Val) : Prim :=
  match v with VP p => p | _ => ToPrimitive v end.

(** [''+v], also the property key [v] stands for in [obj[v]]. *)
Definition to_string (v : Val) : string := prim_to_string (to_prim v).

(** ToNumber of a primitive, [None] when it gives [NaN]. *)
Definition prim_to_number (p : Prim) : option Z :=
  match p with
  | PUndef | PNaN => None
  | PNull => Some 0
  | PBool b => Some (if b then 1 else 0)
  | PNum n => Some (int_val n)
  | PStr s => StringToNumber s
  end.

Definition opt_Z_eqb (a b : option Z) : bool :=
  match a, b with
  | Some x, Some y => x =? y
  | _, _ => false
  end.

(** [a == b] on primitives (IsLooselyEqual). *)
Definition loose_prim (a b : Prim) : bool :=
  match a, b with
  | PUndef, PUndef | PUndef, PNull | PNull, PUndef | PNull, PNull => true
  | PUndef, _ | _, PUndef | PNull, _ | _, PNull => false
  | PBool x, PBool y => Bool.eqb x y
  | PNum x, PNum y => int_val x =? int_val y
  | PNaN, _ | _, PNaN => false
  | PStr x, PStr y => String.eqb x y
  | _, _ => opt_Z_eqb (prim_to_number a) (prim_to_number b)
  end.

(** [a == b] *)
Definition loose_eq (a b : Val) : bool :=
  match a, b with
  | VP p, VP q => loose_prim p q
  | VP PUndef, _ | VP PNull, _ | _, VP PUndef | _, VP PNull => false
  | VP p, _ => loose_prim p (ToPrimitive b)
  | _, VP q => loose_prim (ToPrimitive a) q
  | _, _ => bool_decide (a = b)
  end.

(** [a != b] *)
Definition loose_ne (a b : Val) : bool := negb (loose_eq a b).

End Coercions.

(** The string-to-number conversion on decimal integer literals (an
    optional minus sign and digits; the empty string reads as 0), which
    is all the examples below give it.  Strings that are no number read
    as [None]; fractions, exponents, other radices and surrounding blanks
    are not covered. *)
Definition digit_of (c : ascii) : option Z :=
  let n := Z.of_nat (nat_of_ascii c) in
  if (48 <=? n) && (n <=? 57) then Some (n - 48) else None.

Fixpoint digits_value (acc : Z) (s : string) : option Z :=
  match s with
  | EmptyString => Some acc
  | String c rest =>
      match digit_of c with
      | Some d => digits_value (10 * acc + d) rest
      | None => None
      end
  end.

Definition decimal_to_number (s : string) : option Z :=
  match s with
  | EmptyString => Some 0
  | String "-"%char (String c r) => Z.opp <$> digits_value 0 (String c r)
  | _ => digits_value 0 s
  end.

(** Objects whose conversion to a primitive is the default
    ["[object Object]"]. *)
Definition plain_object (_ : Val) : Prim := PStr "[object Object]".

End Js.

Import Js.

(** ** Results of code that can throw *)

Inductive Res (S A : Type) :=
  | Ok (a : A) (s : S)
  | Throw (msg : string) (s : S).
Arguments Ok {S A} a s.
Arguments Throw {S A} msg s.

Definition M (S A : Type) : Type := S -> Res S A.

Definition ret {S A} (a : A) : M S A := fun s => Ok a s.
Definition bind {S A B} (m : M S A) (k : A -> M S B) : M S B :=
  fun s => match m s with
           | Ok a s' => k a s'
           | Throw msg s' => Throw msg s'
           end.
Definition throw_msg {S A} (msg : string) : M S A := fun s => Throw msg s.
Definition get {S} : M S S := fun s => Ok s s.
Definition modify {S} (f : S -> S) : M S unit := fun s => Ok tt (f s).

Notation "'let!' x ':=' m 'in' k" := (bind m (fun x => k))
  (at level 10, x pattern, m at level 100, k at level 200).
Notation "'run!' m 'in' k" := (bind m (fun _ => k))
  (at level 10, m at level 100, k at level 200).

Definition is_ok {S A} (r : Res S A) : bool :=
  match r with Ok _ _ => true | Throw _ _ => false end.

Definition state_of {S A} (r : Res S A) : S :=
  match r with Ok _ s => s | Throw _ s => s end.

Fixpoint for_each {S A} (f : A -> M S unit) (l : list A) : M S unit :=
  match l with
  | [] => ret tt
  | x :: rest => run! f x in for_each f rest
  end.

(** ** The render tree and jQuery objects *)

#[local] Set Warnings "-register-all".

Inductive Node :=
  | Element (nid : nat) (classes : list string) (children : list Node)
  | Text (nid : nat) (data : string).

(** A jQuery object is the list of nodes it wraps, in document order. *)
Abbreviation JQ := (list Node).

(** The class names that mean the same to [hasClass(cls)] and to the
    selector ['.'+cls]: letters, digits, [_] and [-] only. *)
Definition word_char (c : ascii) : bool :=
  let n := nat_of_ascii c in
  ((48 <=? n) && (n <=? 57) || (65 <=? n) && (n <=? 90)
   || (97 <=? n) && (n <=? 122) || (n =? 95) || (n =? 45))%nat.

Definition plain_name (s : string) : bool :=
  forallb word_char (list_ascii_of_string s).

(** [$(n).hasClass(cls)] for such a name. *)
Definition has_class (cls : string) (n : Node) : bool :=
  match n with
  | Element _ classes _ => bool_decide (cls ∈ classes)
  | Text _ _ => false
  end.

(** The elements of the subtree of [n], [n] included, that carry [cls]. *)
Fixpoint matches (cls : string) (n : Node) : JQ :=
  match n with
  | Element _ _ children =>
      ((if has_class cls n then [n] else []) ++
       (fix over (l : list Node) : JQ :=
          match l with
          | [] => []
          | c :: rest => matches cls c ++ over rest
          end) children)%list
  | Text _ _ => []
  end.

Definition children_of (n : Node) : list Node :=
  match n with Element _ _ children => children | Text _ _ => [] end.

(** [$(n).find('.'+cls)] for such a name: the descendants that carry
    it, [n] itself left out. *)
Definition find (cls : string) (n : Node) : JQ :=
  flat_map (matches cls) (children_of n).

(** ** Callbacks resolved by [curry] *)

Inductive CbSpec :=
  | CbOne (v : Val)          (* a value that is not an array *)
  | CbArr (l : list Val).    (* an array *)

(** The three closures [curry] can return. *)
Inductive Bound :=
  | BMethod (item : Val) (todo : string) (preargs : list Val)
  | BApply (todo : nat) (item : Val) (preargs : list Val)
  | BBind (todo : nat) (item : Val).

(** ** Bound instances and the world [attach] works in *)

Inductive Slot :=
  | SData (v : Val)
  | SOutput (raw : bool) (target : JQ) (value : Val)
  | SInput (target : JQ)
  | SElement (target : JQ)
  | SUpload (target : JQ) (type : Val)
  | SMachine (name : string) (table : gmap string Val) (state : Val).

Record Inst := mkInst {
  self : nat;
  container : JQ;
  element : gmap string JQ;
  props : gmap string Slot;
  _onRemove : list Val
}.

Inductive Listener :=
  | LClick (bound : Bound)
  | LToggle (bound_on bound_off : Bound)
  | LSticky (name : string) (bound : Bound)
  | LOn (bound : Bound).

(** What a binding does to the render tree, and the calls of user
    functions that leave a trace. *)
Inductive Effect :=
  | EOn (target : JQ) (trigger : string) (l : Listener)
  | EText (target : JQ) (v : Val)
  | EHtml (target : JQ) (v : Val)
  | EVal (target : JQ) (v : Val)
  | ECall (f : nat) (this : Val) (args : list Val).

Record World := mkWorld {
  inst : option Inst;
  effects : list Effect
}.

Definition Action : Type := JQ -> M World unit.
Abbreviation Args := (list (string * Val)).

Inductive Factory :=
  | FDef (action : Val)
  | FMachine (name : string) (table : gmap string Val) (initial : Val)
  | FUser (f : Args -> M World Val).

(** ** Objects used as tables *)

(** References of the built-in objects. *)
Definition builtin (k : nat) : nat := 1000 + k.

(** What every object inherits from [Object.prototype]: its methods and
    the accessor [__proto__], which reads as the prototype itself. *)
Definition Object_prototype : gmap string Val :=
  list_to_map
    [ ("constructor", VF (builtin 0));
      ("hasOwnProperty", VF (builtin 1));
      ("isPrototypeOf", VF (builtin 2));
      ("propertyIsEnumerable", VF (builtin 3));
      ("toLocaleString", VF (builtin 4));
      ("toString", VF (builtin 5));
      ("valueOf", VF (builtin 6));
      ("__defineGetter__", VF (builtin 7));
      ("__defineSetter__", VF (builtin 8));
      ("__lookupGetter__", VF (builtin 9));
      ("__lookupSetter__", VF (builtin 10));
      ("__proto__", VO (builtin 11)) ].

Definition inherited (name : string) : Val :=
  default undefined (Object_prototype !! name).

(** The names that read truthy in an empty object. *)
Definition inherited_names : gset string := dom Object_prototype.

Arguments Object_prototype : simpl never.
Arguments inherited_names : simpl never.

(** [obj[name]] on an object [{...}] with the own properties [m]: a
    name it does not have is looked up in [Object.prototype]. *)
Definition prop (m : gmap string Val) (name : string) : Val :=
  match m !! name with
  | Some v => v
  | None => inherited name
  end.

(** The array index a property name stands for, if any. *)
Definition array_index (name : string) : option Z :=
  match digits_value 0 name with
  | Some n =>
      if String.eqb (pretty n) name && (n <? 2 ^ 32 - 1) then Some n else None
  | None => None
  end.

Fixpoint insert_index {A} (n : Z) (e : A) (l : list (Z * A)) : list (Z * A) :=
  match l with
  | [] => [(n, e)]
  | (m, x) :: rest =>
      if n <? m then (n, e) :: l else (m, x) :: insert_index n e rest
  end.

(** The order in which [for (let i in obj)] visits the own properties
    of [obj], given in the order they were created: array indices first,
    in ascending order, then the other names as created. *)
Definition for_in {A} (obj : list (string * A)) : list (string * A) :=
  (foldr (fun e acc =>
            match array_index e.1 with
            | Some n => insert_index n e acc
            | None => acc
            end) [] obj).*2
  ++ filter (fun e => array_index e.1 = None) obj.

(** ** The blueprint *)

(** [noArgs], [allowArgs] and [isMethod] only ever hold [true] and are
    only ever read for truth, so each is the set of the names that read
    truthy in it: the ones it was given and the inherited ones. *)
Record Blueprint := mkBlueprint {
  origin : string;
  _known : gmap string Val;
  isMethod : gset string;
  _html : Val;
  noArgs : gset string;
  allowArgs : gset string;
  assignArgs : gmap string Val;
  _setup : list (string * Action);
  _init : list (string * Factory);
  _onAttach : list (Args -> M World unit);
  callbacks_onRemove : list Val
}.

Definition reserved : list string :=
  [ "appendTo"; "container"; "element"; "id"; "onAttach"; "onRemove"; "remove" ].

Definition all_true (names : list string) : gmap string Val :=
  list_to_map ((fun n => (n, VBool true)) <$> names).

(** [new jRna()], [origin] being the text of [get_stack(2)]. *)
Definition jRna (origin : string) : Blueprint :=
  {| origin := origin;
     _known := all_true reserved;
     isMethod := inherited_names;
     _html := undefined;
     noArgs := list_to_set reserved ∪ inherited_names;
     allowArgs := {[ "id" ]} ∪ inherited_names;
     assignArgs := {[ "id" := VBool true ]};
     _setup := [];
     _init := [];
     _onAttach := [];
     callbacks_onRemove := [] |}.

(** [this.throw(error)] *)
Definition blame {A} (error : string) : M Blueprint A :=
  fun bp => Throw (error +:+ " - jRna@" +:+ origin bp) bp.

Definition set_known (k : gmap string Val) (bp : Blueprint) : Blueprint :=
  {| origin := origin bp; _known := k; isMethod := isMethod bp;
     _html := _html bp; noArgs := noArgs bp; allowArgs := allowArgs bp;
     assignArgs := assignArgs bp; _setup := _setup bp; _init := _init bp;
     _onAttach := _onAttach bp;
     callbacks_onRemove := callbacks_onRemove bp |}.

(** [this.lockName(name, shared)] *)
Definition lockName (name : string) (shared : Val) : M Blueprint unit :=
  let! bp := get in
  run! (if truthy (prop (_known bp) name)
           && negb (strict_eq (prop (_known bp) name) shared)
        then blame ("Property name already in use: " +:+ name)
        else ret tt) in
  modify (fun bp => set_known (<[name := or_else shared (VBool true)]> (_known bp)) bp).

(** *** Argument declarations *)

Record ArgSpec := mkArgSpec { forbidden : Val; assign : Val }.

(** The default [spec={}]. *)
Definition no_spec : ArgSpec := mkArgSpec undefined undefined.

Definition set_args (no allow : gset string) (asg : gmap string Val)
    (bp : Blueprint) : Blueprint :=
  {| origin := origin bp; _known := _known bp; isMethod := isMethod bp;
     _html := _html bp; noArgs := no; allowArgs := allow;
     assignArgs := asg; _setup := _setup bp; _init := _init bp;
     _onAttach := _onAttach bp;
     callbacks_onRemove := callbacks_onRemove bp |}.

(** [this.addArgument(name, spec)] *)
Definition addArgument (name : string) (spec : ArgSpec) : M Blueprint unit :=
  let! bp := get in
  if truthy (forbidden spec) then
    run! (if bool_decide (name ∈ allowArgs bp)
          then blame ("Forbidden argument name: " +:+ name)
          else ret tt) in
    modify (fun bp => set_args ({[ name ]} ∪ noArgs bp) (allowArgs bp)
                               (assignArgs bp) bp)
  else
    run! (if bool_decide (name ∈ noArgs bp)
          then blame ("Forbidden argument name: " +:+ name)
          else ret tt) in
    modify (fun bp => set_args (noArgs bp) ({[ name ]} ∪ allowArgs bp)
                               (<[name := assign spec]> (assignArgs bp)) bp).

(** [this.args(...list)] *)
Definition args (names : list string) : M Blueprint unit :=
  for_each (fun i => addArgument i (mkArgSpec undefined (VBool true))) names.

(** *** Setup actions *)

Definition set_setup (l : list (string * Action)) (bp : Blueprint) : Blueprint :=
  {| origin := origin bp; _known := _known bp; isMethod := isMethod bp;
     _html := _html bp; noArgs := noArgs bp; allowArgs := allowArgs bp;
     assignArgs := assignArgs bp; _setup := l; _init := _init bp;
     _onAttach := _onAttach bp;
     callbacks_onRemove := callbacks_onRemove bp |}.

(** [this.setup(id, action)] *)
Definition setup (id : string) (action : Action) : M Blueprint unit :=
  modify (fun bp => set_setup (_setup bp ++ [(id, action)])%list bp).

Definition throw_at {S A} (origin : string) (error : string) : M S A :=
  throw_msg (error +:+ " - jRna@" +:+ origin).

(** [if (!Array.isArray(spec)) spec = [ spec ]] *)
Definition spec_items (spec : CbSpec) : list Val :=
  match spec with CbArr l => l | CbOne v => [v] end.

(** [curry(item, spec)], a closure over the blueprint whose [origin] it
    reports. *)
Definition curry {S} (origin : string) (item : Val) (spec : CbSpec) : M S Bound :=
  let spec := spec_items spec in
  let todo := hd undefined spec in
  let preargs := tl spec in
  match todo with
  | VP (PStr name) => ret (BMethod item name preargs)
  | VF f =>
      match preargs with
      | _ :: _ => ret (BApply f item preargs)
      | [] => ret (BBind f item)
      end
  | _ => throw_at origin "Unexpected callback argument"
  end.

Definition on_inst (f : Inst -> Inst) (w : World) : World :=
  mkWorld (f <$> inst w) (effects w).

Definition set_prop (name : string) (s : Slot) (i : Inst) : Inst :=
  mkInst (self i) (container i) (element i) (<[name := s]> (props i))
         (_onRemove i).

Definition set_element (id : string) (q : JQ) (i : Inst) : Inst :=
  mkInst (self i) (container i) (<[id := q]> (element i)) (props i)
         (_onRemove i).

Definition emit (e : Effect) : M World unit :=
  modify (fun w => mkWorld (inst w) (effects w ++ [e])%list).

(** A user function that records its call and returns [undefined]. *)
Definition log_call (f : nat) (this : Val) (args : list Val) : M World Val :=
  run! emit (ECall f this args) in ret undefined.

(** The instance under construction, as the value [inst]. *)
Definition inst_val (w : World) : Val :=
  match inst w with Some i => VO (self i) | None => undefined end.

(** [if (!name) name = id] *)
Definition name_or (name : option string) (id : string) : string :=
  match name with
  | Some n => if String.eqb n "" then id else n
  | None => id
  end.

(** [this.output(id, name)] *)
Definition output (id : string) (name : option string) : M Blueprint unit :=
  let name := name_or name id in
  run! lockName name undefined in
  setup id (fun element =>
    modify (on_inst (set_prop name (SOutput false element undefined)))).

(** [this.rawOutput(id, name)] *)
Definition rawOutput (id : string) (name : option string) : M Blueprint unit :=
  let name := name_or name id in
  run! lockName name undefined in
  setup id (fun element =>
    modify (on_inst (set_prop name (SOutput true element undefined)))).

(** [this.input(id, name)] *)
Definition input (id : string) (name : option string) : M Blueprint unit :=
  let name := name_or name id in
  run! lockName name undefined in
  setup id (fun element =>
    modify (on_inst (set_prop name (SInput element)))).

(** [this.click(id, cb)] *)
Definition click (id : string) (cb : CbSpec) : M Blueprint unit :=
  let! bp := get in
  setup id (fun element =>
    let! w := get in
    let! bound := curry (origin bp) (inst_val w) cb in
    emit (EOn element "click" (LClick bound))).

(** [this.toggle(id, cb_on, cb_off)] *)
Definition toggle (id : string) (cb_on cb_off : CbSpec) : M Blueprint unit :=
  let! bp := get in
  setup id (fun element =>
    let! w := get in
    let! bound_on := curry (origin bp) (inst_val w) cb_on in
    let! bound_off := curry (origin bp) (inst_val w) cb_off in
    emit (EOn element "click" (LToggle bound_on bound_off))).

(** [this.stickyClick(id, name, cb)] *)
Definition stickyClick (id name : string) (cb : CbSpec) : M Blueprint unit :=
  let! bp := get in
  run! lockName name (VStr "stickyClick") in
  setup id (fun element =>
    let! w := get in
    let! bound := curry (origin bp) (inst_val w) cb in
    emit (EOn element "click" (LSticky name bound))).

(** [this.element(id, name)] *)
Definition element_ (id : string) (name : option string) : M Blueprint unit :=
  let name := name_or name id in
  run! lockName name undefined in
  run! addArgument name (mkArgSpec (VNum 1) undefined) in
  setup id (fun element =>
    modify (on_inst (set_prop name (SElement element)))).

(** [this.upload(id, name, type)] *)
Definition upload (id : string) (name : option string) (type : Val)
    : M Blueprint unit :=
  let name := name_or name id in
  run! lockName name undefined in
  run! addArgument name (mkArgSpec (VNum 1) undefined) in
  setup id (fun element =>
    modify (on_inst (set_prop name (SUpload element type)))).

(** [this.on(trigger, id, cb)] *)
Definition on (trigger id : string) (cb : CbSpec) : M Blueprint unit :=
  let! bp := get in
  setup id (fun element =>
    let! w := get in
    let! bound := curry (origin bp) (inst_val w) cb in
    emit (EOn element trigger (LOn bound))).

(** *** Initial values *)

Definition set_init (m : gset string) (l : list (string * Factory))
    (bp : Blueprint) : Blueprint :=
  {| origin := origin bp; _known := _known bp; isMethod := m;
     _html := _html bp; noArgs := noArgs bp; allowArgs := allowArgs bp;
     assignArgs := assignArgs bp; _setup := _setup bp; _init := l;
     _onAttach := _onAttach bp;
     callbacks_onRemove := callbacks_onRemove bp |}.

(** [obj[name] = v] on an object whose properties are listed in the
    order they were created: an existing one keeps its place. *)
Fixpoint assoc_set {A} (name : string) (v : A) (l : list (string * A))
    : list (string * A) :=
  match l with
  | [] => [(name, v)]
  | (k, x) :: rest =>
      if String.eqb k name then (k, v) :: rest
      else (k, x) :: assoc_set name v rest
  end.

Fixpoint assoc_get {A} (name : string) (l : list (string * A)) : option A :=
  match l with
  | [] => None
  | (k, x) :: rest => if String.eqb k name then Some x else assoc_get name rest
  end.

(** [this.init(name, action)] with the factory [f]. *)
Definition init_with (name : string) (f : Factory) : M Blueprint unit :=
  run! lockName name undefined in
  modify (fun bp => set_init (isMethod bp) (assoc_set name f (_init bp)) bp).

(** [this.init(name, action)] *)
Definition init (name : string) (action : Args -> M World Val) : M Blueprint unit :=
  init_with name (FUser action).

(** [this.def(name, action)] *)
Definition def (name : string) (action : Val) : M Blueprint unit :=
  run! lockName name undefined in
  run! (if is_function action
        then modify (fun bp => set_init ({[ name ]} ∪ isMethod bp) (_init bp) bp)
        else ret tt) in
  modify (fun bp => set_init (isMethod bp) (assoc_set name (FDef action) (_init bp)) bp).

Definition set_onAttach (l : list (Args -> M World unit)) (bp : Blueprint)
    : Blueprint :=
  {| origin := origin bp; _known := _known bp; isMethod := isMethod bp;
     _html := _html bp; noArgs := noArgs bp; allowArgs := allowArgs bp;
     assignArgs := assignArgs bp; _setup := _setup bp; _init := _init bp;
     _onAttach := l;
     callbacks_onRemove := callbacks_onRemove bp |}.

(** [this.onAttach(fun)] *)
Definition onAttach (f : Args -> M World unit) : M Blueprint unit :=
  modify (fun bp => set_onAttach (_onAttach bp ++ [f])%list bp).

Definition set_onRemove (l : list Val) (bp : Blueprint) : Blueprint :=
  {| origin := origin bp; _known := _known bp; isMethod := isMethod bp;
     _html := _html bp; noArgs := noArgs bp; allowArgs := allowArgs bp;
     assignArgs := assignArgs bp; _setup := _setup bp; _init := _init bp;
     _onAttach := _onAttach bp;
     callbacks_onRemove := l |}.

(** [this.onRemove(cb)] *)
Definition onRemove (cb : Val) : M Blueprint unit :=
  modify (fun bp => set_onRemove (callbacks_onRemove bp ++ [cb])%list bp).

(** ** The engine *)

(** An error the runtime raises by itself, as when a value that is not a
    function is called; the text after the prefix differs between
    engines and stands for theirs. *)
Definition TypeError (what : string) : string := "TypeError: " +:+ what.

(** What [checkElement] is given: a plain value or a jQuery object. *)
Inductive ElemArg :=
  | AVal (v : Val)
  | AJQ (q : JQ).

(** [jRna.prefix] *)
Definition prefix : string := "jrna-".

Section Engine.

(** Supplied by the runtime: the two coercions, what calling a user
    function does, what [window.$(selector)] finds in the document, the
    child nodes [innerHTML = str] gives an empty [div] and the markup
    [outerHTML] writes for a node. *)
Variable StringToNumber : string -> option Z.
Variable ToPrimitive : Val -> Prim.
Variable call_fn : nat -> Val -> list Val -> M World Val.
Variable select : string -> JQ.
Variable innerHTML : string -> list Node.
Variable outerHTML : Node -> string.

Abbreviation str := (to_string ToPrimitive).
Notation "a != b" := (loose_ne StringToNumber ToPrimitive a b)
  (at level 70, no associativity).

(** *** Sticky state machines *)

(** The state a machine runs in: its closure variable [state] and the
    world its handlers act on. *)
Definition in_world {A} (m : M World A) : M (Val * World) A :=
  fun s => match m (snd s) with
           | Ok a w => Ok a (fst s, w)
           | Throw e w => Throw e (fst s, w)
           end.

Definition set_state (v : Val) : M (Val * World) unit :=
  modify (fun s => (v, snd s)).

(** The closure [function(arg) { ... }] that [stickyState] installs,
    called with receiver [this]. *)
Definition machine_call (origin name : string) (action_hash : gmap string Val)
    (this arg : Val) : M (Val * World) Val :=
  let! s := get in
  let state := fst s in
  if is_undefined arg then ret state
  else
    run! (if arg != state then
            let todo := prop action_hash (str arg) in
            run! (if negb (truthy todo)
                  then throw_at origin
                         ("Illegal state switch for " +:+ name +:+ ": "
                          +:+ str state +:+ "->" +:+ str arg)
                  else ret tt) in
            run! (match todo with
                  | VF f => in_world (call_fn f this [state; arg])
                  | _ => throw_msg (TypeError "todo.bind is not a function")
                  end) in
            set_state arg
          else ret tt) in
    ret this.

(** [this.stickyState(name, action_hash, initial)] *)
Definition stickyState (name : string) (action_hash : gmap string Val)
    (initial : Val) : M Blueprint unit :=
  run! (if negb (is_undefined initial)
           && negb (truthy (prop action_hash (str initial)))
        then blame ("Illegal initial state " +:+ str initial)
        else ret tt) in
  run! modify (fun bp => set_init ({[ name ]} ∪ isMethod bp) (_init bp) bp) in
  init_with name (FMachine name action_hash initial).

(** *** Calling what [curry] returned *)

(** [getprop] reads a property of the item at the time of the call. *)
Definition invoke (getprop : World -> string -> Val) (b : Bound)
    (args : list Val) : M World Val :=
  match b with
  | BMethod item todo preargs =>
      let! w := get in
      match getprop w todo with
      | VF f => call_fn f item (preargs ++ args)%list
      | _ => throw_msg (TypeError "item[todo].apply is not a function")
      end
  | BApply todo item preargs => call_fn todo item (preargs ++ args)%list
  | BBind todo item => call_fn todo item args
  end.

(** *** Elements and templates *)

(** [this.checkElement(element, action)] *)
Definition checkElement {S} (origin : string) (element : ElemArg)
    (action : string) : M S JQ :=
  let check (q : JQ) (selector : string) : M S JQ :=
    match q with
    | [] => throw_at origin ("Cannot " +:+ action +:+ " a missing element"
                             +:+ selector)
    | [_] => ret (take 1 q)
    | _ => throw_at origin ("Cannot " +:+ action +:+ " an ambiguous element"
                            +:+ selector)
    end in
  match element with
  | AVal v =>
      if negb (truthy v)
      then throw_at origin ("Cannot " +:+ action +:+ " a null element")
      else match v with
           | VP (PStr sel) => check (select sel) (" $(" +:+ sel +:+ ")")
           | _ => throw_at origin ("Cannot " +:+ action +:+ " a non-$ object")
           end
  | AJQ q => check q ""
  end.

(** [parseHTML(str)].  It is called as a plain function in strict
    code, so its [this] is [undefined] and each [this.throw(...)] in it
    raises a [TypeError]. *)
Definition parseHTML {S} (v : Val) : M S Node :=
  match innerHTML (str v) with
  | [] => throw_msg (TypeError "this is undefined")
  | [n] => ret n
  | _ => throw_msg (TypeError "this is undefined")
  end.

Definition set_html (v : Val) (bp : Blueprint) : Blueprint :=
  {| origin := origin bp; _known := _known bp; isMethod := isMethod bp;
     _html := v; noArgs := noArgs bp; allowArgs := allowArgs bp;
     assignArgs := assignArgs bp; _setup := _setup bp; _init := _init bp;
     _onAttach := _onAttach bp;
     callbacks_onRemove := callbacks_onRemove bp |}.

(** [this.html(html)] *)
Definition html (v : Val) : M Blueprint unit :=
  let! bp := get in
  run! (if truthy v then
          let! n := parseHTML v in
          run! checkElement (origin bp) (AJQ [n]) "accept html() that is" in
          ret tt
        else ret tt) in
  modify (set_html (or_else v undefined)).

(** [this.htmlFrom(selector)] *)
Definition htmlFrom (selector : ElemArg) : M Blueprint unit :=
  let! bp := get in
  let! q := checkElement (origin bp) selector "get HTML from" in
  match q with
  | n :: _ => modify (set_html (VStr (outerHTML n)))
  | [] => throw_msg (TypeError "selector[0] is undefined")
  end.

(** *** Binding *)

(** [key in args] *)
Definition has_key (key : string) (args : Args) : bool :=
  match assoc_get key args with
  | Some _ => true
  | None => bool_decide (key ∈ inherited_names)
  end.

(** [meta._init[i].apply(inst, [args])] *)
Definition run_factory (f : Factory) (args : Args) : M World Slot :=
  match f with
  | FDef action => ret (SData action)
  | FMachine name action_hash initial => ret (SMachine name action_hash initial)
  | FUser f => let! v := f args in ret (SData v)
  end.

Definition slot_of (key : string) (w : World) : option Slot :=
  i ← inst w; props i !! key.

(** [inst[key] = v]: a property made by [output], [rawOutput] or
    [input] has a setter that hands the value to jQuery, whose [text]
    and [html] write nothing when given [undefined]. *)
Definition assign_prop (key : string) (v : Val) : M World unit :=
  let! w := get in
  match slot_of key w with
  | Some (SOutput raw target _) =>
      run! (if is_undefined v then ret tt
            else emit (if raw then EHtml target v else EText target v)) in
      modify (on_inst (set_prop key (SOutput raw target v)))
  | Some (SInput target) => emit (EVal target v)
  | _ => modify (on_inst (set_prop key (SData v)))
  end.

(** What an instance inherits: [jRna.Bound.prototype], whose
    [constructor] is [jRna.Bound], and behind it [Object.prototype]. *)
Definition Bound_inherited (key : string) : Val :=
  if String.eqb key "constructor" then VF (builtin 12) else inherited key.

(** [inst[key](v)] *)
Definition call_method (origin key : string) (v : Val) : M World unit :=
  let! w := get in
  match slot_of key w with
  | Some (SMachine name action_hash state) =>
      match machine_call origin name action_hash (inst_val w) v (state, w) with
      | Ok _ (state', w') => fun _ =>
          Ok tt (on_inst (set_prop key (SMachine name action_hash state')) w')
      | Throw e (state', w') => fun _ =>
          Throw e (on_inst (set_prop key (SMachine name action_hash state')) w')
      end
  | Some (SData (VF f)) | Some (SOutput _ _ (VF f)) =>
      run! call_fn f (inst_val w) [v] in ret tt
  | Some _ => throw_msg (TypeError "inst[key] is not a function")
  | None =>
      match Bound_inherited key with
      | VF f => run! call_fn f (inst_val w) [v] in ret tt
      | _ => throw_msg (TypeError "inst[key] is not a function")
      end
  end.

(** [container.find('.'+cls)], with the container itself put in front
    when it has the class. *)
Definition candidates (cls : string) (container : Node) : JQ :=
  ((if has_class cls container then [container] else [])
   ++ find cls container)%list.

(** The subtree under the container at this moment: a setup action
    that changes the tree leaves the new one in [container] of the
    instance. *)
Definition tree_now (root : Node) (w : World) : Node :=
  match inst w with
  | Some i => hd root (container i)
  | None => root
  end.

(** One turn of [for (let action of meta._setup)]. *)
Definition resolve (bp : Blueprint) (root : Node)
    (action : string * Action) : M World unit :=
  let cls := prefix +:+ action.1 in
  let! w := get in
  let all := candidates cls (tree_now root w) in
  run! checkElement (origin bp) (AJQ all) ("fulfill ." +:+ cls +:+ " with") in
  run! action.2 all in
  modify (on_inst (set_element action.1 all)).

(** One turn of [for (let i in meta._init)]; what the factory returned
    is assigned to the property. *)
Definition initialize (bp : Blueprint) (args : Args)
    (entry : string * Factory) : M World unit :=
  if negb (bool_decide (entry.1 ∈ isMethod bp)) && has_key entry.1 args
  then ret tt
  else
    let! s := run_factory entry.2 args in
    match s with
    | SData v => assign_prop entry.1 v
    | _ => modify (on_inst (set_prop entry.1 s))
    end.

(** One turn of [for (let key in args)]. *)
Definition apply_arg (bp : Blueprint) (arg : string * Val) : M World unit :=
  if negb (bool_decide (arg.1 ∈ allowArgs bp))
  then throw_at (origin bp) ("unknown argument " +:+ arg.1)
  else if negb (truthy (prop (assignArgs bp) arg.1)) then ret tt
  else if bool_decide (arg.1 ∈ isMethod bp)
       then call_method (origin bp) arg.1 arg.2
       else assign_prop arg.1 arg.2.

(** [new jRna.Bound()] with its first properties. *)
Definition fresh_inst (bp : Blueprint) (ref : nat) (container : JQ) : Inst :=
  mkInst ref container ∅ ∅ (callbacks_onRemove bp).

(** The part of [attach] that makes the instance: the new object with
    its first properties, the setup actions and the initial values. *)
Definition populate (bp : Blueprint) (ref : nat) (container : JQ)
    (root : Node) (args : Args) : M World unit :=
  run! modify (fun w => mkWorld (Some (fresh_inst bp ref container))
                                (effects w)) in
  run! for_each (resolve bp root) (_setup bp) in
  for_each (initialize bp args) (for_in (_init bp)).

(** [this.attach(container, args)]; [ref] is the reference the new
    instance gets, [args] lists the keys of the argument object in the
    order [for ... in] visits them. *)
Definition attach (bp : Blueprint) (ref : nat) (container : ElemArg)
    (args : Args) : M World Val :=
  let! container := checkElement (origin bp) container "attach to" in
  match container with
  | [] => throw_msg (TypeError "no container")   (* [first()] of one node *)
  | root :: _ =>
      run! populate bp ref container root args in
      run! for_each (apply_arg bp) args in
      run! for_each (fun hook => hook args) (_onAttach bp) in
      ret (VO ref)
  end.

(** [this.spawn(args)] *)
Definition spawn (bp : Blueprint) (ref : nat) (args : Args) : M World Val :=
  run! (if negb (truthy (_html bp))
        then throw_at (origin bp) "Trying to spawn with an empty html()"
        else ret tt) in
  let! n := parseHTML (_html bp) in
  run! checkElement (origin bp) (AJQ [n]) "spawn() while html() is" in
  attach bp ref (AJQ [n]) args.

End Engine.

(** ** Building a blueprint

    The declarations a caller can make on a blueprint, and the
    blueprints that sequences of them lead to.  A declaration that throws
    leaves the blueprint as it was at the throw, and the caller may go
    on with it.  [initArray] and [initObject] are [init] with a factory
    that copies its start value. *)

Inductive Decl :=
  | DLockName (name : string) (shared : Val)
  | DHtml (v : Val)
  | DHtmlFrom (selector : ElemArg)
  | DAddArgument (name : string) (spec : ArgSpec)
  | DArgs (names : list string)
  | DSetup (id : string) (action : Action)
  | DOutput (id : string) (name : option string)
  | DRawOutput (id : string) (name : option string)
  | DInput (id : string) (name : option string)
  | DClick (id : string) (cb : CbSpec)
  | DToggle (id : string) (cb_on cb_off : CbSpec)
  | DStickyClick (id name : string) (cb : CbSpec)
  | DElement (id : string) (name : option string)
  | DUpload (id : string) (name : option string) (type : Val)
  | DOn (trigger id : string) (cb : CbSpec)
  | DDef (name : string) (action : Val)
  | DInit (name : string) (action : Args -> M World Val)
  | DStickyState (name : string) (action_hash : gmap string Val) (initial : Val)
  | DOnAttach (f : Args -> M World unit)
  | DOnRemove (cb : Val).

Section Building.

Variable ToPrimitive : Val -> Prim.
Variable select : string -> JQ.
Variable innerHTML : string -> list Node.
Variable outerHTML : Node -> string.

Definition declare (d : Decl) : M Blueprint unit :=
  match d with
  | DLockName name shared => lockName name shared
  | DHtml v => html ToPrimitive select innerHTML v
  | DHtmlFrom selector => htmlFrom select outerHTML selector
  | DAddArgument name spec => addArgument name spec
  | DArgs names => args names
  | DSetup id action => setup id action
  | DOutput id name => output id name
  | DRawOutput id name => rawOutput id name
  | DInput id name => input id name
  | DClick id cb => click id cb
  | DToggle id cb_on cb_off => toggle id cb_on cb_off
  | DStickyClick id name cb => stickyClick id name cb
  | DElement id name => element_ id name
  | DUpload id name type => upload id name type
  | DOn trigger id cb => on trigger id cb
  | DDef name action => def name action
  | DInit name action => init name action
  | DStickyState name action_hash initial =>
      stickyState ToPrimitive name action_hash initial
  | DOnAttach f => onAttach f
  | DOnRemove cb => onRemove cb
  end.

(** The blueprints reachable from [new jRna()]. *)
Inductive Built : Blueprint -> Prop :=
  | Built_new org : Built (jRna org)
  | Built_declare bp d : Built bp -> Built (state_of (declare d bp)).

End Building.

(** The blueprint after a run of declarations, thrown or not. *)
Definition declare_all (ToPrimitive : Val -> Prim) (select : string -> JQ)
    (innerHTML : string -> list Node) (outerHTML : Node -> string)
    (ds : list Decl) (bp : Blueprint) : Blueprint :=
  foldl (fun b d => state_of (declare ToPrimitive select innerHTML outerHTML d b))
        bp ds.

(** The world before anything is bound. *)
Definition empty_world : World := mkWorld None [].

(** What [innerHTML] gives for the markups the examples use; every
    other string, the stray end tag [</div>] among them, gives no
    node. *)
Definition sample_innerHTML (s : string) : list Node :=
  if String.eqb s "<b></b>" then [Element 1 [] []]
  else if String.eqb s "<b></b><i></i>" then [Element 1 [] []; Element 2 [] []]
  else [].

(** The blueprints and the container of the examples:
    [new jRna().click('go', f)], the same with [.output('title')] after
    it, the same with [.addArgument('mode')] instead, and
    [<div class="jrna-go"></div>]. *)
Definition sample_click : Blueprint :=
  state_of (click "go" (CbOne (VF 3)) (jRna "here")).

Definition sample_click_output : Blueprint :=
  state_of (output "title" None sample_click).


Definition sample_container : Node := Element 1 ["jrna-go"] [].

(** ** Bound instances at work *)

(** The nodes of a subtree in document order, the root first. *)
Fixpoint subtree (n : Node) : list Node :=
  match n with
  | Element _ _ children =>
      n :: (fix over (l : list Node) : list Node :=
              match l with
              | [] => []
              | c :: rest => (subtree c ++ over rest)%list
              end) children
  | Text _ _ => [n]
  end.

(** The state reached after a run of event handlers, each starting where
    the one before it stopped, thrown or not. *)
Definition after_events {S A} (handlers : list (M S A)) (s : S) : S :=
  foldl (fun s h => state_of (h s)) s handlers.

Definition in_snd {T A} (m : M World A) : M (T * World) A :=
  fun s => match m (snd s) with
           | Ok a w => Ok a (fst s, w)
           | Throw e w => Throw e (fst s, w)
           end.

(** The properties [attach] itself puts on an instance. *)
Definition own_builtin : list string :=
  [ "container"; "_onRemove"; "onRemove"; "element"; "appendTo"; "remove" ].

Section Live.

(** Supplied by the runtime: calls of user functions, the value
    [item[todo]] has when a resolved callback runs, [element.val()],
    [window.$(selector)], what [for ... of] finds in a value that is not
    the instance's own list ([None] when it cannot be iterated), and the
    two jQuery operations [remove()] and [append()]. *)
Variable call_fn : nat -> Val -> list Val -> M World Val.
Variable getprop : World -> string -> Val.
Variable dom_val : JQ -> World -> Val.
Variable select : string -> JQ.
Variable innerHTML : string -> list Node.
Variable StringToNumber : string -> option Z.
Variable ToPrimitive : Val -> Prim.
Variable iterate : Val -> World -> option (list Val).
Variable dom_remove : JQ -> M World unit.
Variable dom_append : JQ -> JQ -> M World unit.

(** [!!inst[key]] *)
Definition prop_truthy (key : string) (w : World) : bool :=
  match slot_of key w with
  | Some (SData v) | Some (SOutput _ _ v) => truthy v
  | Some (SInput target) => truthy (dom_val target w)
  | Some (SElement _) | Some (SUpload _ _) | Some (SMachine _ _ _) => true
  | None =>
      match inst w with
      | Some _ => bool_decide (key ∈ own_builtin) || truthy (Bound_inherited key)
      | None => false
      end
  end.

(** The listener of [click]: [function (ev) { bound(ev); return false; }] *)
Definition fire_click (bound : Bound) (ev : Val) : M World Val :=
  run! invoke call_fn getprop bound [ev] in ret (VBool false).

(** The listener of [on]: [bound] itself, given all handler arguments. *)
Definition fire_on (bound : Bound) (evargs : list Val) : M World Val :=
  invoke call_fn getprop bound evargs.

(** The listener of [toggle]; the first component of the state is its
    closure variable [on]. *)
Definition fire_toggle (bound_on bound_off : Bound) (ev : Val)
    : M (bool * World) Val :=
  let! s := get in
  let on := negb (fst s) in
  run! modify (fun s => (on, snd s)) in
  run! in_snd (invoke call_fn getprop (if on then bound_on else bound_off) [ev]) in
  ret (VBool false).

(** The listener of [stickyClick]. *)
Definition fire_sticky (name : string) (bound : Bound) (ev : Val) : M World Val :=
  let! w := get in
  if negb (prop_truthy name w) then
    run! assign_prop name (VBool true) in
    run! invoke call_fn getprop bound [ev] in
    ret (VBool false)
  else ret (VBool false).

(** [inst._onRemove] as [for ... of] reads it: the list [attach] made,
    unless an initial value or an argument named [_onRemove] has taken
    its place. *)
Definition removal_callbacks (w : World) : option (list Val) :=
  match inst w with
  | None => None
  | Some i =>
      match props i !! "_onRemove" with
      | None => Some (_onRemove i)
      | Some (SData v) | Some (SOutput _ _ v) => iterate v w
      | Some (SInput target) => iterate (dom_val target w) w
      | Some (SElement []) => Some []
      | Some _ => None
      end
  end.

(** [cb.bind(inst)()] *)
Definition call_removal (this cb : Val) : M World unit :=
  match cb with
  | VF f => run! call_fn f this [] in ret tt
  | _ => throw_msg (TypeError "cb.bind is not a function")
  end.

(** The loop of [inst.remove], from position [k] of the list, which is
    read again at every turn since a callback may add to it; [false]
    when [fuel] turns did not reach the end. *)
Fixpoint removal_loop (fuel : nat) (this : Val) (k : nat) : M World bool :=
  match fuel with
  | O => ret false
  | S fuel' =>
      let! w := get in
      match removal_callbacks w with
      | None => throw_msg (TypeError "inst._onRemove is not iterable")
      | Some cbs =>
          match cbs !! k with
          | None => ret true
          | Some cb =>
              run! call_removal this cb in
              removal_loop fuel' this (S k)
          end
      end
  end.

(** [inst.remove()], for the instance of reference [ref]. *)
Definition inst_remove (fuel : nat) (ref : nat) : M World bool :=
  let! finished := removal_loop fuel (VO ref) 0 in
  if finished : bool then
    let! w := get in
    match inst w with
    | Some i => run! dom_remove (container i) in ret true
    | None => throw_msg (TypeError "inst.container is undefined")
    end
  else ret false.

(** [inst.appendTo(element)], a closure over the blueprint [meta]. *)
Definition inst_appendTo (meta : Blueprint) (ref : nat) (element : ElemArg)
    : M World Val :=
  let! parent := checkElement select (origin meta) element "append to" in
  let! w := get in
  match inst w with
  | Some i => run! dom_append parent (container i) in ret (VO ref)
  | None => throw_msg (TypeError "inst.container is undefined")
  end.

(** [this.appendTo(element, args)] of the blueprint. *)
Definition appendTo (bp : Blueprint) (ref : nat) (element : ElemArg)
    (args : Args) : M World Val :=
  run! spawn StringToNumber ToPrimitive call_fn select innerHTML bp ref args in
  inst_appendTo bp ref element.

End Live.

(** ** [jRna.documentTitle] *)

(** The object [me] and the page title it writes: the captured array
    [args], the properties added to [me] beyond its accessors, and
    [window.document.title]. *)
Record TitleBar := mkTitleBar {
  title_args : list Val;
  title_own : gmap nat Val;
  document_title : string
}.

Section Title.

Variable ToPrimitive : Val -> Prim.

(** One element as [Array.prototype.join] writes it. *)
Definition join_part (v : Val) : string :=
  match v with
  | VP PUndef | VP PNull => ""
  | _ => to_string ToPrimitive v
  end.

(** [args.join('')] *)
Definition join_all (l : list Val) : string :=
  foldr (fun v rest => join_part v +:+ rest) "" l.

(** [jRna.documentTitle(...args)] on a page whose title is [title]. *)
Definition documentTitle (args : list Val) (title : string) : TitleBar :=
  mkTitleBar args ∅ title.

(** [me.update()] *)
Definition title_update (t : TitleBar) : TitleBar :=
  mkTitleBar (title_args t) (title_own t) (join_all (title_args t)).

(** [me.length] *)
Definition title_length (t : TitleBar) : nat := List.length (title_args t).

(** [me[i]] *)
Definition title_get (i : nat) (t : TitleBar) : Val :=
  if bool_decide (i < title_length t)%nat
  then default undefined (title_args t !! i)
  else default undefined (title_own t !! i).

(** [me[i] = val] *)
Definition title_set (i : nat) (val : Val) (t : TitleBar) : TitleBar :=
  if bool_decide (i < title_length t)%nat
  then title_update (mkTitleBar (<[i := val]> (title_args t)) (title_own t)
                                (document_title t))
  else mkTitleBar (title_args t) (<[i := val]> (title_own t)) (document_title t).

End Title.

(** A setup action that leaves the tree under the container as it
    is. *)
Definition keeps_tree (action : Action) : Prop :=
  forall q w, container <$> inst (state_of (action q w)) = container <$> inst w.

(** The setup actions that the builder methods queue: those of
    [output] and [rawOutput], [input], [click], [toggle], [stickyClick],
    [element], [upload] and [on], as opposed to the ones a caller hands
    to [setup] directly. *)
Inductive builder_action : Action -> Prop :=
  | action_output name raw :
      builder_action (fun element =>
        modify (on_inst (set_prop name (SOutput raw element undefined))))
  | action_input name :
      builder_action (fun element =>
        modify (on_inst (set_prop name (SInput element))))
  | action_click org cb :
      builder_action (fun element =>
        let! w := get in
        let! bound := curry org (inst_val w) cb in
        emit (EOn element "click" (LClick bound)))
  | action_toggle org cb_on cb_off :
      builder_action (fun element =>
        let! w := get in
        let! bound_on := curry org (inst_val w) cb_on in
        let! bound_off := curry org (inst_val w) cb_off in
        emit (EOn element "click" (LToggle bound_on bound_off)))
  | action_stickyClick org name cb :
      builder_action (fun element =>
        let! w := get in
        let! bound := curry org (inst_val w) cb in
        emit (EOn element "click" (LSticky name bound)))
  | action_element name :
      builder_action (fun element =>
        modify (on_inst (set_prop name (SElement element))))
  | action_upload name type :
      builder_action (fun element =>
        modify (on_inst (set_prop name (SUpload element type))))
  | action_on org trigger cb :
      builder_action (fun element =>
        let! w := get in
        let! bound := curry org (inst_val w) cb in
        emit (EOn element trigger (LOn bound))).

(** The declaration that hands an action of the caller's to [setup]. *)
Definition is_custom (d : Decl) : bool :=
  match d with DSetup _ _ => true | _ => false end.

(** A blueprint whose setup queue holds actions of the builder methods
    only, and the steps that keep it so. *)
Definition builder_made (bp : Blueprint) : Prop :=
  forall id a, (id, a) ∈ _setup bp -> builder_action a.

Definition builder_step (a b : Blueprint) : Prop :=
  builder_made a -> builder_made b.

(** A property that assignment just overwrites: no setter sits there. *)
Definition plain_slot (s : option Slot) : Prop :=
  match s with
  | Some (SOutput _ _ _) | Some (SInput _) => False
  | _ => True
  end.

(** What the argument loop leaves in the properties when every key is
    a plain one. *)
Definition write_args (args : Args) (m : gmap string Slot) : gmap string Slot :=
  foldl (fun m kv => <[kv.1 := SData kv.2]> m) m args.

Definition with_props (m : gmap string Slot) (i : Inst) : Inst :=
  mkInst (self i) (container i) (element i) m (_onRemove i).

(** The declarations that register an initial value. *)
Definition is_init_decl (d : Decl) : bool :=
  match d with
  | DDef _ _ | DInit _ _ | DStickyState _ _ _ => true
  | _ => false
  end.

(** Relations between a blueprint and a later one: every lock is still
    there with its tag; every queue has only grown at its end. *)
Definition tags_kept (a b : Blueprint) : Prop :=
  forall name, truthy (prop (_known a) name) = true ->
               prop (_known b) name = prop (_known a) name.

Definition queues_kept (a b : Blueprint) : Prop :=
  origin b = origin a /\
  _setup a `prefix_of` _setup b /\
  _onAttach a `prefix_of` _onAttach b /\
  callbacks_onRemove a `prefix_of` callbacks_onRemove b.

(** The argument tables as every built blueprint has them. *)
Definition args_wf (bp : Blueprint) : Prop :=
  (forall name, name ∈ reserved -> name ∈ noArgs bp) /\
  (forall name, name ∈ inherited_names ->
                name ∈ noArgs bp /\ name ∈ allowArgs bp) /\
  (forall name, name ∈ allowArgs bp -> name ∈ noArgs bp ->
                name = "id" \/ name ∈ inherited_names) /\
  "id" ∈ allowArgs bp /\
  prop (assignArgs bp) "id" = VBool true.

(** The initial values as every built blueprint has them: no name
    twice, every name locked for good. *)
Definition init_wf (bp : Blueprint) : Prop :=
  NoDup ((_init bp).*1) /\
  forall name, name ∈ ((_init bp).*1) -> prop (_known bp) name = VBool true.

(** The property name a declaration claims for itself, if any. *)
Definition declared_name (d : Decl) : option string :=
  match d with
  | DOutput id name | DRawOutput id name | DInput id name
  | DElement id name | DUpload id name _ => Some (name_or name id)
  | DStickyClick _ name _ => Some name
  | DDef name _ | DInit name _ | DStickyState name _ _ => Some name
  | _ => None
  end.

(** Steps that keep the tables as they should be. *)
Definition args_step (a b : Blueprint) : Prop := args_wf a -> args_wf b.

Definition init_step (a b : Blueprint) : Prop := init_wf a -> init_wf b.

(** * Properties *)

(** ** The property registry *)

Section Registry.

Implicit Types (bp : Blueprint) (name : string) (shared : Val).

Lemma lockName_unfold name shared bp :
  lockName name shared bp =
    if truthy (prop (_known bp) name)
       && negb (strict_eq (prop (_known bp) name) shared)
    then Throw ("Property name already in use: " +:+ name +:+ " - jRna@"
                +:+ origin bp) bp
    else Ok tt (set_known (<[name := or_else shared (VBool true)]> (_known bp)) bp).
Proof.
  unfold lockName, bind, get, modify, blame, ret.
  destruct (truthy _ && negb _); reflexivity.
Qed.

Lemma or_else_true_truthy shared : truthy (or_else shared (VBool true)) = true.
Proof. unfold or_else. destruct (truthy shared) eqn:E; [exact E | reflexivity]. Qed.

Lemma lockName_records name shared bp bp1 :
  lockName name shared bp = Ok tt bp1 ->
  prop (_known bp1) name = or_else shared (VBool true).
Proof.
  rewrite lockName_unfold. destruct (_ && _); [discriminate|].
  intros [= <-]. unfold prop. simpl. by rewrite lookup_insert_eq.
Qed.

Lemma strict_eq_false (a b : Val) : a <> b -> strict_eq a b = false.
Proof.
  intros H. unfold strict_eq.
  destruct a as [[]| |]; try reflexivity; by apply bool_decide_eq_false.
Qed.

Lemma strict_eq_refl (a : Val) : truthy a = true -> strict_eq a a = true.
Proof.
  intros H. unfold strict_eq.
  destruct a as [[]| |]; try discriminate; by apply bool_decide_eq_true.
Qed.

Lemma strict_eq_true (a b : Val) : strict_eq a b = true -> a = b.
Proof.
  unfold strict_eq.
  destruct a as [[]| |]; try discriminate; apply bool_decide_eq_true_1.
Qed.

Lemma reserved_known origin name :
  name ∈ reserved -> prop (_known (jRna origin)) name = VBool true.
Proof.
  unfold reserved. rewrite !elem_of_cons, elem_of_nil.
  intros H. decompose [or] H; subst; try reflexivity. contradiction.
Qed.

End Registry.

(** C5, as stated, fails: the reserved name [id] is locked with the
    value [true], and [lockName('id', true)] finds the very same tag and
    passes, so locking a reserved name does not fail whatever the tag. *)
Lemma C5_reserved_relock_counterexample :
  ~ (forall tag : Val, is_ok (lockName "id" tag (jRna "here")) = false).
Proof.
  intros H. specialize (H (VBool true)). vm_compute in H. discriminate.
Qed.

(** C5, amended: once a name is locked, a second [lockName] of it fails
    for every tag that differs from the recorded one (the first tag, or
    [true] when the first tag was absent or falsy), hence also when
    neither declaration has a tag; it passes, and changes nothing, when
    both carry the same truthy tag; and on a fresh blueprint locking a
    reserved name fails for every tag except [true] itself. *)
Theorem C5_lockName_twice :
  (forall bp bp1 name (a b : Val),
      lockName name a bp = Ok tt bp1 ->
      b <> or_else a (VBool true) ->
      lockName name b bp1 =
        Throw ("Property name already in use: " +:+ name +:+ " - jRna@"
               +:+ origin bp1) bp1) /\
  (forall bp bp1 name (a : Val),
      truthy a = true ->
      lockName name a bp = Ok tt bp1 ->
      lockName name a bp1 = Ok tt bp1) /\
  (forall org name (tag : Val),
      name ∈ reserved ->
      tag <> VBool true ->
      lockName name tag (jRna org) =
        Throw ("Property name already in use: " +:+ name +:+ " - jRna@" +:+ org)
              (jRna org)).
Proof.
  split; [|split].
  - intros bp bp1 name a b H1 Hne.
    rewrite lockName_unfold, (lockName_records _ _ _ _ H1).
    rewrite or_else_true_truthy, strict_eq_false by congruence. reflexivity.
  - intros bp bp1 name a Ha H1.
    pose proof (lockName_records _ _ _ _ H1) as Hk.
    rewrite lockName_unfold, Hk.
    assert (Hor : or_else a (VBool true) = a) by (unfold or_else; by rewrite Ha).
    rewrite Hor, (strict_eq_refl _ Ha), Bool.andb_false_r.
    f_equal. rewrite lockName_unfold in H1.
    destruct (_ && _); [discriminate|]. injection H1 as <-.
    unfold set_known; simpl. rewrite Hor, insert_insert_eq. reflexivity.
  - intros org name tag Hr Hne.
    rewrite lockName_unfold, (reserved_known _ _ Hr).
    rewrite strict_eq_false by congruence. reflexivity.
Qed.

Lemma C5_lockName_twice_witness :
  is_ok (lockName "edit" undefined
           (state_of (lockName "edit" undefined (jRna "here")))) = false /\
  is_ok (lockName "lock" (VStr "stickyClick")
           (state_of (lockName "lock" (VStr "stickyClick") (jRna "here")))) = true /\
  is_ok (lockName "remove" (VStr "stickyClick") (jRna "here")) = false.
Proof.
  destruct C5_lockName_twice as (H1 & H2 & H3).
  split; [|split].
  - erewrite (H1 (jRna "here") _ "edit" undefined undefined);
      [reflexivity | reflexivity | discriminate].
  - erewrite (H2 (jRna "here") _ "lock" (VStr "stickyClick"));
      [reflexivity | reflexivity | reflexivity].
  - rewrite (H3 "here" "remove" (VStr "stickyClick"));
      [reflexivity | | discriminate].
    unfold reserved. rewrite !elem_of_cons. tauto.
Defined.

(** ** Programs that only move the state along a preorder *)

Section Along.

Context {S : Type} (R : S -> S -> Prop).
Hypothesis R_refl : forall s, R s s.
Hypothesis R_trans : forall a b c, R a b -> R b c -> R a c.

Definition along {A} (m : M S A) : Prop := forall s, R s (state_of (m s)).

Lemma along_ret {A} (a : A) : along (ret a).
Proof. intros s. apply R_refl. Qed.

Lemma along_get : along get.
Proof. intros s. apply R_refl. Qed.

Lemma along_throw {A} msg : along (@throw_msg S A msg).
Proof. intros s. apply R_refl. Qed.

Lemma along_modify f : (forall s, R s (f s)) -> along (modify f).
Proof. intros H s. apply H. Qed.

Lemma along_bind {A B} (m : M S A) (k : A -> M S B) :
  along m -> (forall a, along (k a)) -> along (bind m k).
Proof.
  intros Hm Hk s. unfold bind. specialize (Hm s).
  destruct (m s) as [a s'|msg s']; simpl in *; [|exact Hm].
  eapply R_trans; [exact Hm | apply Hk].
Qed.

Lemma along_if {A} (b : bool) (m1 m2 : M S A) :
  along m1 -> along m2 -> along (if b then m1 else m2).
Proof. by destruct b. Qed.

Lemma along_for_each {A} (f : A -> M S unit) (l : list A) :
  (forall x, along (f x)) -> along (for_each f l).
Proof.
  intros Hf. induction l as [|x l IH]; simpl.
  - apply along_ret.
  - apply along_bind; [apply Hf | intros _; exact IH].
Qed.

End Along.

(** ** Argument declarations *)

Section Arguments.

Variable ToPrimitive : Val -> Prim.
Variable select : string -> JQ.
Variable innerHTML : string -> list Node.
Variable outerHTML : Node -> string.

(** No declaration ever takes a name out of [noArgs]. *)
Definition keeps_forbidden (a b : Blueprint) : Prop := noArgs a ⊆ noArgs b.

Local Abbreviation keeps := (along keeps_forbidden).

Lemma keeps_refl bp : keeps_forbidden bp bp.
Proof. unfold keeps_forbidden. set_solver. Qed.

Lemma keeps_trans a b c :
  keeps_forbidden a b -> keeps_forbidden b c -> keeps_forbidden a c.
Proof. unfold keeps_forbidden. set_solver. Qed.

Lemma keeps_blame {A} msg : keeps (@blame A msg).
Proof. intros bp. apply keeps_refl. Qed.

Create HintDb keeps discriminated.

Ltac keeps_step :=
  first
    [ solve [auto 1 with keeps nocore]
    | apply (along_ret keeps_forbidden keeps_refl)
    | apply (along_get keeps_forbidden keeps_refl)
    | apply (along_throw keeps_forbidden keeps_refl)
    | apply keeps_blame
    | apply along_modify; intros ?; unfold keeps_forbidden; simpl; set_solver
    | apply along_if
    | apply (along_for_each keeps_forbidden keeps_refl keeps_trans); intros ?
    | apply (along_bind keeps_forbidden keeps_trans); [|intros ?] ].

Lemma keeps_lockName name shared : keeps (lockName name shared).
Proof. unfold lockName. repeat keeps_step. Qed.

Lemma keeps_addArgument name spec : keeps (addArgument name spec).
Proof. unfold addArgument. repeat keeps_step. Qed.

Lemma keeps_setup id action : keeps (setup id action).
Proof. unfold setup. repeat keeps_step. Qed.

Local Hint Resolve keeps_lockName keeps_addArgument keeps_setup : keeps.

Lemma keeps_html v : keeps (html ToPrimitive select innerHTML v).
Proof.
  unfold html, parseHTML, checkElement.
  destruct (innerHTML _) as [|? [|? ?]]; repeat keeps_step.
Qed.

Lemma keeps_htmlFrom selector : keeps (htmlFrom select outerHTML selector).
Proof.
  unfold htmlFrom. apply (along_bind keeps_forbidden keeps_trans);
    [apply (along_get keeps_forbidden keeps_refl)|]. intros bp.
  apply (along_bind keeps_forbidden keeps_trans).
  - unfold checkElement. destruct selector as [v|q].
    + destruct (negb (truthy v)); [repeat keeps_step|].
      destruct v as [[| | | | |sel]| |]; try (repeat keeps_step).
      destruct (select sel) as [|? [|? ?]]; repeat keeps_step.
    + destruct q as [|? [|? ?]]; repeat keeps_step.
  - intros q. destruct q; repeat keeps_step.
Qed.

Lemma keeps_declare d :
  keeps (declare ToPrimitive select innerHTML outerHTML d).
Proof.
  destruct d; simpl; try solve [auto 1 with keeps nocore].
  - apply keeps_html.
  - apply keeps_htmlFrom.
  - unfold args. repeat keeps_step.
  - unfold output. repeat keeps_step.
  - unfold rawOutput. repeat keeps_step.
  - unfold input. repeat keeps_step.
  - unfold click. repeat keeps_step.
  - unfold toggle. repeat keeps_step.
  - unfold stickyClick. repeat keeps_step.
  - unfold element_. repeat keeps_step.
  - unfold upload. repeat keeps_step.
  - unfold on. repeat keeps_step.
  - unfold def. repeat keeps_step.
  - unfold init, init_with. repeat keeps_step.
  - unfold stickyState, init_with. repeat keeps_step.
  - unfold onAttach. repeat keeps_step.
  - unfold onRemove. repeat keeps_step.
Qed.

Lemma Built_reserved bp name :
  Built ToPrimitive select innerHTML outerHTML bp ->
  name ∈ reserved -> name ∈ noArgs bp.
Proof.
  induction 1 as [org|bp d _ IH]; intros Hr.
  - unfold jRna; cbn [noArgs]. apply elem_of_union_l. by apply elem_of_list_to_set.
  - apply (keeps_declare d bp). auto.
Qed.

Lemma addArgument_unfold name spec bp :
  addArgument name spec bp =
    if truthy (forbidden spec) then
      if bool_decide (name ∈ allowArgs bp)
      then Throw ("Forbidden argument name: " +:+ name +:+ " - jRna@"
                  +:+ origin bp) bp
      else Ok tt (set_args ({[ name ]} ∪ noArgs bp) (allowArgs bp)
                           (assignArgs bp) bp)
    else
      if bool_decide (name ∈ noArgs bp)
      then Throw ("Forbidden argument name: " +:+ name +:+ " - jRna@"
                  +:+ origin bp) bp
      else Ok tt (set_args (noArgs bp) ({[ name ]} ∪ allowArgs bp)
                           (<[name := assign spec]> (assignArgs bp)) bp).
Proof.
  unfold addArgument, bind, get, modify, blame, ret.
  destruct (truthy (forbidden spec)); case_bool_decide; reflexivity.
Qed.

Lemma declare_all_keeps ds bp :
  noArgs bp ⊆ noArgs (declare_all ToPrimitive select innerHTML outerHTML ds bp).
Proof.
  revert bp. induction ds as [|d ds IH]; intros bp; simpl; [set_solver|].
  etrans; [apply (keeps_declare d bp) | apply IH].
Qed.

Lemma element_registers id name bp bp1 :
  element_ id name bp = Ok tt bp1 -> name_or name id ∈ noArgs bp1.
Proof.
  unfold element_, bind, setup, modify.
  destruct (lockName _ _ bp) as [[] b1|]; [|discriminate].
  rewrite addArgument_unfold. simpl.
  case_bool_decide; [discriminate|]. intros [= <-]. simpl. set_solver.
Qed.

Lemma upload_registers id name type bp bp1 :
  upload id name type bp = Ok tt bp1 -> name_or name id ∈ noArgs bp1.
Proof.
  unfold upload, bind, setup, modify.
  destruct (lockName _ _ bp) as [[] b1|]; [|discriminate].
  rewrite addArgument_unfold. simpl.
  case_bool_decide; [discriminate|]. intros [= <-]. simpl. set_solver.
Qed.

End Arguments.

(** C10: on every blueprint built from [new jRna()], [addArgument(name)]
    throws "Forbidden argument name" when [name] is one of the seven
    reserved names or has been registered as forbidden; a name that
    [element()] or [upload()] took stays forbidden through all later
    declarations; [id] is allowed and assignable on a new blueprint and
    still cannot be declared again; and [addArgument(name, {forbidden:
    true})] throws when [name] is allowed at that time. *)
Theorem C10_addArgument_forbidden
    (ToPrimitive : Val -> Prim) (select : string -> JQ)
    (innerHTML : string -> list Node) (outerHTML : Node -> string)
    (bp : Blueprint) :
  Built ToPrimitive select innerHTML outerHTML bp ->
  let forbidden_name name b :=
    Throw (S := Blueprint) (A := unit)
          ("Forbidden argument name: " +:+ name +:+ " - jRna@" +:+ origin b) b in
  (forall name spec,
      truthy (forbidden spec) = false ->
      name ∈ reserved \/ name ∈ noArgs bp ->
      addArgument name spec bp = forbidden_name name bp) /\
  (forall id name bp1 ds spec,
      element_ id name bp = Ok tt bp1 \/
      (exists type, upload id name type bp = Ok tt bp1) ->
      truthy (forbidden spec) = false ->
      let bp2 := declare_all ToPrimitive select innerHTML outerHTML ds bp1 in
      addArgument (name_or name id) spec bp2 = forbidden_name (name_or name id) bp2) /\
  (forall org spec,
      "id" ∈ allowArgs (jRna org) /\
      truthy (prop (assignArgs (jRna org)) "id") = true /\
      (truthy (forbidden spec) = false ->
       addArgument "id" spec bp = forbidden_name "id" bp)) /\
  (forall name spec,
      truthy (forbidden spec) = true ->
      name ∈ allowArgs bp ->
      addArgument name spec bp = forbidden_name name bp).
Proof.
  intros HB fn.
  assert (Hno : forall name spec b,
             truthy (forbidden spec) = false -> name ∈ noArgs b ->
             addArgument name spec b = fn name b).
  { intros name spec b Hf Hin. rewrite addArgument_unfold, Hf.
    by rewrite bool_decide_eq_true_2. }
  split; [|split; [|split]].
  - intros name spec Hf [Hr|Hin]; apply Hno; auto.
    eapply Built_reserved; eauto.
  - intros id name bp1 ds spec Hreg Hf bp2. apply Hno; [exact Hf|].
    apply declare_all_keeps.
    destruct Hreg as [He|[ty Hu]];
      eauto using element_registers, upload_registers.
  - intros org spec. split; [|split].
    + unfold jRna; cbn [allowArgs]. apply elem_of_union_l. by apply elem_of_singleton.
    + reflexivity.
    + intros Hf. apply Hno; [exact Hf|].
      eapply Built_reserved; eauto. unfold reserved. rewrite !elem_of_cons. tauto.
  - intros name spec Hf Hin. rewrite addArgument_unfold, Hf.
    by rewrite bool_decide_eq_true_2.
Qed.

Lemma C10_addArgument_forbidden_witness :
  let bp := jRna "here" in
  is_ok (addArgument "remove" no_spec bp) = false /\
  is_ok (addArgument "id" (mkArgSpec undefined (VBool true)) bp) = false /\
  is_ok (addArgument "id" (mkArgSpec (VBool true) undefined) bp) = false /\
  is_ok (addArgument "save"  no_spec
           (state_of (args ["size"] (state_of (element_ "save" None bp))))) = false.
Proof.
  intros bp.
  destruct (C10_addArgument_forbidden plain_object (fun _ => []) (fun _ => [])
              (fun _ => "") bp (Built_new _ _ _ _ "here"))
    as (H1 & H2 & H3 & H4).
  split; [|split; [|split]].
  - rewrite (H1 "remove" no_spec); [reflexivity | reflexivity |].
    left. unfold reserved. rewrite !elem_of_cons. tauto.
  - destruct (H3 "here" (mkArgSpec undefined (VBool true))) as (_ & _ & H).
    rewrite H; reflexivity.
  - rewrite (H4 "id" (mkArgSpec (VBool true) undefined));
      [reflexivity | reflexivity |].
    unfold bp, jRna; cbn [allowArgs]. apply elem_of_union_l. by apply elem_of_singleton.
  - pose proof (H2 "save" None (state_of (element_ "save" None bp))
                  [DArgs ["size"]] no_spec) as H.
    cbv zeta in H. cbn [declare_all foldl declare name_or] in H.
    rewrite H; [reflexivity | left; vm_compute; reflexivity | reflexivity].
Defined.

(** ** The sticky state machine *)

Section Machine.

Variable StringToNumber : string -> option Z.
Variable ToPrimitive : Val -> Prim.
Variable call_fn : nat -> Val -> list Val -> M World Val.
Variables (origin name : string) (action_hash : gmap string Val).

Local Abbreviation str := (to_string ToPrimitive).
Local Abbreviation loosely := (loose_eq StringToNumber ToPrimitive).
Local Abbreviation machine :=
  (machine_call StringToNumber ToPrimitive call_fn origin name action_hash).

Implicit Types (this arg state : Val) (w : World).

Lemma loose_prim_refl p : p <> PNaN -> loose_prim StringToNumber p p = true.
Proof.
  intros Hn. destruct p as [| |b|z| |s]; simpl; try reflexivity.
  - by destruct b.
  - apply Z.eqb_refl.
  - by destruct Hn.
  - apply String.eqb_refl.
Qed.

(** Every value but [NaN] is loosely equal to itself. *)
Lemma loose_eq_refl v : v <> NaN -> loosely v v = true.
Proof.
  intros Hn. destruct v as [p|r|r]; simpl.
  - assert (p <> PNaN) by (unfold NaN in Hn; congruence).
    destruct p; by apply loose_prim_refl.
  - by apply bool_decide_eq_true.
  - by apply bool_decide_eq_true.
Qed.

Lemma loose_eq_NaN v : loosely NaN v = false.
Proof.
  destruct v as [q|r|r]; simpl;
    [destruct q | destruct (ToPrimitive _) | destruct (ToPrimitive _)];
    reflexivity.
Qed.

Lemma prop_own (m : gmap string Val) key v : m !! key = Some v -> prop m key = v.
Proof. intros H. unfold prop. by rewrite H. Qed.

Lemma is_undefined_false v : v <> undefined -> is_undefined v = false.
Proof. unfold undefined. destruct v as [[]| |]; simpl; congruence. Qed.

(** No argument: the getter. *)
Lemma machine_getter this state w :
  machine this undefined (state, w) = Ok state (state, w).
Proof. reflexivity. Qed.

(** An argument loosely equal to the state: nothing happens. *)
Lemma machine_same this arg state w :
  arg <> undefined -> loosely arg state = true ->
  machine this arg (state, w) = Ok this (state, w).
Proof.
  intros Hu He. unfold machine_call, bind, get, ret, loose_ne. simpl.
  rewrite (is_undefined_false _ Hu), He. reflexivity.
Qed.

(** Any other argument that names a function in the table: one call of
    that function, then the new state. *)
Lemma machine_switch this arg state w f :
  arg <> undefined -> loosely arg state = false ->
  prop action_hash (str arg) = VF f ->
  machine this arg (state, w) =
    match call_fn f this [state; arg] w with
    | Ok _ w' => Ok this (arg, w')
    | Throw e w' => Throw e (state, w')
    end.
Proof.
  intros Hu He Hf.
  unfold machine_call, bind, get, ret, loose_ne, in_world, set_state,
    modify. simpl.
  rewrite (is_undefined_false _ Hu), He, Hf. simpl.
  destruct (call_fn f this [state; arg] w); reflexivity.
Qed.

(** Any other argument that names nothing: the throw. *)
Lemma machine_illegal this arg state w :
  arg <> undefined -> loosely arg state = false ->
  truthy (prop action_hash (str arg)) = false ->
  machine this arg (state, w) =
    Throw (("Illegal state switch for " +:+ name +:+ ": " +:+ str state
            +:+ "->" +:+ str arg) +:+ " - jRna@" +:+ origin) (state, w).
Proof.
  intros Hu He Hf.
  unfold machine_call, bind, get, ret, loose_ne, throw_at, throw_msg. simpl.
  rewrite (is_undefined_false _ Hu), He, Hf. reflexivity.
Qed.

End Machine.

(** C3, as stated, fails at two inputs.  A machine declared without an
    initial state is in state [undefined], and calling it with that very
    value is the getter call: it returns [undefined], not the receiver.
    And in state [1] (a number) the different, declared target ['1'] (a
    string) is loosely equal to the state: no handler runs, no call is
    recorded, and the state stays [1]. *)
Lemma C3_counterexample :
  let machine :=
    machine_call decimal_to_number plain_object log_call "here" "isDone"
                 {[ "1" := VF 0 ]} in
  let this := VO 7 in
  machine this undefined (undefined, empty_world)
    = Ok undefined (undefined, empty_world) /\
  undefined <> this /\
  machine this (VStr "1") (VNum 1, empty_world)
    = Ok this (VNum 1, empty_world) /\
  VStr "1" <> VNum 1.
Proof. repeat split; try reflexivity; discriminate. Qed.

(** C3, amended: in any state [s], a call without an argument (or with
    [undefined]) returns [s] and changes nothing; a call with an argument
    other than [undefined] that is loosely equal to [s] runs no handler,
    keeps the state and returns the receiver, and so does a call with
    [s] itself unless [s] is [NaN], which is loosely equal to nothing; a
    call with an argument [t] that is not loosely equal to [s] and whose
    string form names a function of the table makes exactly one call, of
    that function, with the receiver as [this] and the arguments
    [(s, t)], and when it returns the state is [t] and the receiver is
    returned; in state [NaN] the argument [NaN] is such a [t]. *)
Theorem C3_machine_call
    (StringToNumber : string -> option Z) (ToPrimitive : Val -> Prim)
    (call_fn : nat -> Val -> list Val -> M World Val)
    (origin name : string) (action_hash : gmap string Val)
    (this s : Val) (w : World) :
  let machine :=
    machine_call StringToNumber ToPrimitive call_fn origin name action_hash in
  machine this undefined (s, w) = Ok s (s, w) /\
  (forall arg, arg <> undefined ->
     loose_eq StringToNumber ToPrimitive arg s = true ->
     machine this arg (s, w) = Ok this (s, w)) /\
  (s <> undefined -> s <> NaN -> machine this s (s, w) = Ok this (s, w)) /\
  (forall t f, t <> undefined ->
     loose_eq StringToNumber ToPrimitive t s = false ->
     action_hash !! to_string ToPrimitive t = Some (VF f) ->
     machine this t (s, w) =
       match call_fn f this [s; t] w with
       | Ok _ w' => Ok this (t, w')
       | Throw e w' => Throw e (s, w')
       end) /\
  (forall f, action_hash !! "NaN" = Some (VF f) ->
     machine this NaN (NaN, w) =
       match call_fn f this [NaN; NaN] w with
       | Ok _ w' => Ok this (NaN, w')
       | Throw e w' => Throw e (NaN, w')
       end).
Proof.
  intros machine. split; [|split; [|split; [|split]]].
  - apply machine_getter.
  - intros arg Hu He. by apply machine_same.
  - intros Hu Hn. apply machine_same; [exact Hu | by apply loose_eq_refl].
  - intros t f Hu He Hf. apply machine_switch; [exact Hu | exact He |].
    by apply prop_own.
  - intros f Hf. apply machine_switch; [discriminate | apply loose_eq_NaN |].
    by apply prop_own.
Qed.

Lemma C3_machine_call_witness :
  let machine :=
    machine_call decimal_to_number plain_object log_call "here" "isDone"
                 {[ "done" := VF 3 ]} in
  machine (VO 7) (VStr "open") (VStr "open", empty_world)
    = Ok (VO 7) (VStr "open", empty_world) /\
  machine (VO 7) (VStr "done") (VStr "open", empty_world)
    = Ok (VO 7) (VStr "done",
                 mkWorld None [ECall 3 (VO 7) [VStr "open"; VStr "done"]]).
Proof.
  intros machine.
  destruct (C3_machine_call decimal_to_number plain_object log_call "here"
              "isDone" {[ "done" := VF 3 ]} (VO 7) (VStr "open") empty_world)
    as (_ & H2 & H3 & H4 & _).
  split.
  - apply H3; discriminate.
  - unfold machine. rewrite (H4 (VStr "done") 3%nat);
      [reflexivity | discriminate | reflexivity | reflexivity].
Defined.

(** C4, as stated, fails: a machine declared without an initial state is
    in state [undefined]; called with [null], which the table does not
    declare, it does not fail, because [null != undefined] is false: it
    returns the receiver. *)
Lemma C4_undeclared_target_counterexample :
  let action_hash : gmap string Val := {[ "done" := VF 0 ]} in
  action_hash !! to_string plain_object VNull = None /\
  machine_call decimal_to_number plain_object log_call "here" "isDone"
    action_hash (VO 7) VNull (undefined, empty_world)
  = Ok (VO 7) (undefined, empty_world).
Proof. split; reflexivity. Qed.

(** C4, amended: [stickyState] throws when an initial state other than
    [undefined] is given whose string form reads as nothing truthy in the
    table, own or inherited; a machine called with a target that is not
    loosely equal to its state and whose string form reads as nothing
    truthy in the table throws a message with the old and the new state,
    its state stays, and a later call without argument returns the old
    state.  (A target loosely equal to the state is accepted whether
    declared or not.) *)
Theorem C4_illegal_state
    (StringToNumber : string -> option Z) (ToPrimitive : Val -> Prim)
    (call_fn : nat -> Val -> list Val -> M World Val)
    (name : string) (action_hash : gmap string Val) :
  (forall bp initial,
     initial <> undefined ->
     truthy (prop action_hash (to_string ToPrimitive initial)) = false ->
     stickyState ToPrimitive name action_hash initial bp =
       Throw (("Illegal initial state " +:+ to_string ToPrimitive initial)
              +:+ " - jRna@" +:+ origin bp) bp) /\
  (forall org this this' arg s w,
     let machine :=
       machine_call StringToNumber ToPrimitive call_fn org name action_hash in
     arg <> undefined ->
     loose_eq StringToNumber ToPrimitive arg s = false ->
     truthy (prop action_hash (to_string ToPrimitive arg)) = false ->
     machine this arg (s, w) =
       Throw (("Illegal state switch for " +:+ name +:+ ": "
               +:+ to_string ToPrimitive s +:+ "->"
               +:+ to_string ToPrimitive arg) +:+ " - jRna@" +:+ org) (s, w) /\
     machine this' undefined (state_of (machine this arg (s, w))) = Ok s (s, w)).
Proof.
  split.
  - intros bp initial Hu Hf.
    unfold stickyState, bind, blame.
    rewrite (is_undefined_false _ Hu), Hf. reflexivity.
  - intros org this this' arg s w machine Hu He Hf.
    assert (H := machine_illegal StringToNumber ToPrimitive call_fn org name
                   action_hash this arg s w Hu He Hf).
    split; [exact H|]. unfold machine. rewrite H. apply machine_getter.
Qed.

Lemma C4_illegal_state_witness :
  let action_hash : gmap string Val := {[ "done" := VF 3 ]} in
  is_ok (stickyState plain_object "isDone" action_hash (VStr "open")
           (jRna "here")) = false /\
  machine_call decimal_to_number plain_object log_call "here" "isDone"
    action_hash (VO 7) (VStr "lost") (VStr "done", empty_world)
  = Throw "Illegal state switch for isDone: done->lost - jRna@here"
          (VStr "done", empty_world).
Proof.
  intros action_hash.
  destruct (C4_illegal_state decimal_to_number plain_object log_call "isDone"
              action_hash) as (H1 & H2).
  split.
  - rewrite (H1 (jRna "here") (VStr "open"));
      [reflexivity | discriminate | reflexivity].
  - destruct (H2 "here" (VO 7) (VO 7) (VStr "lost") (VStr "done") empty_world)
      as (H & _); [discriminate | reflexivity | reflexivity |].
    rewrite H. reflexivity.
Defined.

(** C8: the machine compares its argument to the state with [!=] and
    looks the handler up under the string form of the argument.  A call
    with any value loosely equal to the state runs no handler and returns
    the receiver; so does the number [1] in state ['1'], given that the
    runtime reads the string ['1'] as the number [1]; two values with
    the same string form reach the same handler of the table; and a call
    with any value loosely equal to the state, [undefined] included,
    passes and changes nothing. *)
Theorem C8_loose_equality_and_string_keys
    (StringToNumber : string -> option Z) (ToPrimitive : Val -> Prim)
    (call_fn : nat -> Val -> list Val -> M World Val)
    (origin name : string) (action_hash : gmap string Val)
    (this : Val) (w : World) :
  let machine :=
    machine_call StringToNumber ToPrimitive call_fn origin name action_hash in
  (forall arg s, arg <> undefined ->
     loose_eq StringToNumber ToPrimitive arg s = true ->
     machine this arg (s, w) = Ok this (s, w)) /\
  (StringToNumber "1" = Some 1 ->
     machine this (VNum 1) (VStr "1", w) = Ok this (VStr "1", w)) /\
  (forall a b s f,
     a <> undefined -> b <> undefined ->
     loose_eq StringToNumber ToPrimitive a s = false ->
     loose_eq StringToNumber ToPrimitive b s = false ->
     to_string ToPrimitive a = to_string ToPrimitive b ->
     action_hash !! to_string ToPrimitive a = Some (VF f) ->
     machine this a (s, w) =
       match call_fn f this [s; a] w with
       | Ok _ w' => Ok this (a, w')
       | Throw e w' => Throw e (s, w')
       end /\
     machine this b (s, w) =
       match call_fn f this [s; b] w with
       | Ok _ w' => Ok this (b, w')
       | Throw e w' => Throw e (s, w')
       end) /\
  (forall arg s,
     loose_eq StringToNumber ToPrimitive arg s = true ->
     is_ok (machine this arg (s, w)) = true /\
     state_of (machine this arg (s, w)) = (s, w)).
Proof.
  intros machine. split; [|split; [|split]]; cycle 3.
  - intros arg s He. destruct (decide (arg = undefined)) as [->|Hu].
    + unfold machine. rewrite machine_getter. by split.
    + unfold machine. rewrite machine_same by done. by split.
  - intros arg s Hu He. by apply machine_same.
  - intros H1. apply machine_same; [discriminate|].
    simpl. rewrite H1. reflexivity.
  - intros a b s f Ha Hb Hla Hlb Hstr Hf. split.
    + apply machine_switch; [exact Ha | exact Hla | by apply prop_own].
    + apply machine_switch; [exact Hb | exact Hlb |].
      rewrite <- Hstr. by apply prop_own.
Qed.

Lemma C8_loose_equality_and_string_keys_witness :
  let machine :=
    machine_call decimal_to_number plain_object log_call "here" "level"
                 {[ "1" := VF 3 ]} in
  machine (VO 7) (VNum 1) (VStr "1", empty_world)
    = Ok (VO 7) (VStr "1", empty_world) /\
  machine (VO 7) (VNum 1) (VStr "open", empty_world)
    = Ok (VO 7) (VNum 1, mkWorld None [ECall 3 (VO 7) [VStr "open"; VNum 1]]) /\
  machine (VO 7) (VStr "1") (VStr "open", empty_world)
    = Ok (VO 7) (VStr "1", mkWorld None [ECall 3 (VO 7) [VStr "open"; VStr "1"]]).
Proof.
  intros machine.
  destruct (C8_loose_equality_and_string_keys decimal_to_number plain_object
              log_call "here" "level" {[ "1" := VF 3 ]} (VO 7) empty_world)
    as (H1 & H2 & H3 & _).
  split.
  - apply H2. reflexivity.
  - destruct (H3 (VNum 1) (VStr "1") (VStr "open") 3%nat) as (Ha & Hb);
      try discriminate; try reflexivity.
    unfold machine. rewrite Ha, Hb. split; reflexivity.
Defined.

(** ** The callback resolver *)

(** C7: [curry] turns a function, a method name, or an array with one of
    these at its head, into one closure; called with the arguments [R],
    the closure calls the function with the instance as receiver and the
    tail of the array followed by [R], a method name being read from the
    instance when the closure is called; a specification whose head is
    neither a function nor a string makes [curry] throw. *)
Theorem C7_curry
    (call_fn : nat -> Val -> list Val -> M World Val)
    (getprop : World -> string -> Val)
    {S : Type} (origin : string) (item : Val) (spec : CbSpec) (s : S) :
  let todo := hd undefined (spec_items spec) in
  let preargs := tl (spec_items spec) in
  (forall f, todo = VF f ->
     exists b, curry origin item spec s = Ok b s /\
       forall R w, invoke call_fn getprop b R w
                   = call_fn f item (preargs ++ R)%list w) /\
  (forall m, todo = VStr m ->
     exists b, curry origin item spec s = Ok b s /\
       forall R w f, getprop w m = VF f ->
         invoke call_fn getprop b R w = call_fn f item (preargs ++ R)%list w) /\
  (is_function todo = false -> is_string todo = false ->
     curry origin item spec s
     = Throw ("Unexpected callback argument - jRna@" +:+ origin) s).
Proof.
  intros todo preargs. unfold curry. fold todo preargs.
  split; [|split].
  - intros f ->. destruct preargs as [|p ps] eqn:E.
    + eexists. split; [reflexivity|]. intros R w. reflexivity.
    + eexists. split; [reflexivity|]. intros R w. reflexivity.
  - intros m ->. eexists. split; [reflexivity|].
    intros R w f Hf. unfold invoke, bind, get. simpl. rewrite Hf. reflexivity.
  - intros Hf Hs. destruct todo as [[]| |]; simpl in *; try discriminate;
      reflexivity.
Qed.

Lemma C7_curry_witness :
  let getprop (w : World) (m : string) :=
    if String.eqb m "save" then VF (List.length (effects w)) else undefined in
  (exists b, curry (S := World) "here" (VO 7) (CbArr [VF 3; VNum 1]) empty_world
             = Ok b empty_world /\
     invoke log_call getprop b [VStr "ev"] empty_world
     = log_call 3 (VO 7) [VNum 1; VStr "ev"] empty_world) /\
  (exists b, curry (S := World) "here" (VO 7) (CbOne (VStr "save")) empty_world
             = Ok b empty_world /\
     invoke log_call getprop b [VStr "ev"] (mkWorld None [EText [] undefined])
     = log_call 1 (VO 7) [VStr "ev"] (mkWorld None [EText [] undefined])) /\
  is_ok (curry (S := World) "here" (VO 7) (CbArr []) empty_world) = false.
Proof.
  intros getprop.
  split; [|split].
  - destruct (C7_curry log_call getprop "here" (VO 7) (CbArr [VF 3; VNum 1])
                empty_world) as (H & _ & _).
    destruct (H 3%nat eq_refl) as (b & Hb & Hcall).
    exists b. split; [exact Hb | apply Hcall].
  - destruct (C7_curry log_call getprop "here" (VO 7) (CbOne (VStr "save"))
                empty_world) as (_ & H & _).
    destruct (H "save" eq_refl) as (b & Hb & Hcall).
    exists b. split; [exact Hb | apply Hcall; reflexivity].
  - destruct (C7_curry log_call getprop "here" (VO 7) (CbArr []) empty_world)
      as (_ & _ & H).
    rewrite H; reflexivity.
Defined.

(** ** Templates *)

Section Templates.

Variable StringToNumber : string -> option Z.
Variable ToPrimitive : Val -> Prim.
Variable call_fn : nat -> Val -> list Val -> M World Val.
Variable select : string -> JQ.
Variable innerHTML : string -> list Node.

Local Abbreviation str := (to_string ToPrimitive).
Local Abbreviation html' := (html ToPrimitive select innerHTML).

Lemma html_unfold v bp :
  html' v bp =
    if truthy v then
      match innerHTML (str v) with
      | [n] => Ok tt (set_html v bp)
      | _ => Throw (TypeError "this is undefined") bp
      end
    else Ok tt (set_html undefined bp).
Proof.
  unfold html, bind, get, modify, parseHTML, checkElement, or_else, ret,
    throw_msg.
  destruct (truthy v); [|reflexivity].
  destruct (innerHTML (str v)) as [|n [|n' rest]]; reflexivity.
Qed.

Lemma spawn_empty bp ref args w :
  truthy (_html bp) = false ->
  spawn StringToNumber ToPrimitive call_fn select innerHTML bp ref args w =
    Throw ("Trying to spawn with an empty html() - jRna@" +:+ origin bp) w.
Proof. intros H. unfold spawn, bind. rewrite H. reflexivity. Qed.

End Templates.

(** C6, as stated, fails: [html('')] does not reject the empty template;
    it returns with the template cleared. *)
Lemma C6_empty_template_counterexample :
  html plain_object (fun _ => []) (fun _ => []) (VStr "") (jRna "here")
  = Ok tt (jRna "here").
Proof. reflexivity. Qed.

(** C6, amended: [html()] called with a truthy value, a non-empty markup
    string in particular, throws at the call, leaving the blueprint as it
    was, when the markup parses to no node or to more than one root node,
    and stores it when it parses to one element; called with the empty
    string or another falsy value it does not throw. *)
Theorem C6_html_checks_template
    (ToPrimitive : Val -> Prim) (select : string -> JQ)
    (innerHTML : string -> list Node) (v : Val) (bp : Blueprint) :
  let roots := innerHTML (to_string ToPrimitive v) in
  (truthy v = true -> (List.length roots <> 1)%nat ->
     html ToPrimitive select innerHTML v bp
     = Throw (TypeError "this is undefined") bp) /\
  (truthy v = true ->
     forall nid classes children, roots = [Element nid classes children] ->
     html ToPrimitive select innerHTML v bp = Ok tt (set_html v bp)) /\
  (truthy v = false ->
     html ToPrimitive select innerHTML v bp = Ok tt (set_html undefined bp)).
Proof.
  intros roots. split; [|split].
  - intros Hv Hlen. rewrite html_unfold, Hv. fold roots.
    destruct roots as [|n [|n' rest]]; simpl in Hlen; [reflexivity|lia|reflexivity].
  - intros Hv nid classes children Hr. rewrite html_unfold, Hv. fold roots.
    rewrite Hr. reflexivity.
  - intros Hv. rewrite html_unfold, Hv. reflexivity.
Qed.

Lemma C6_html_checks_template_witness :
  let html' := html plain_object (fun _ => []) sample_innerHTML in
  is_ok (html' (VStr "</div>") (jRna "here")) = false /\
  is_ok (html' (VStr "<b></b><i></i>") (jRna "here")) = false /\
  _html (state_of (html' (VStr "<b></b>") (jRna "here"))) = VStr "<b></b>" /\
  is_ok (html' (VStr "") (jRna "here")) = true.
Proof.
  intros html'. unfold html'.
  split; [|split; [|split]].
  - destruct (C6_html_checks_template plain_object (fun _ => []) sample_innerHTML
                (VStr "</div>") (jRna "here")) as (H & _ & _).
    rewrite H; [reflexivity | reflexivity | simpl; lia].
  - destruct (C6_html_checks_template plain_object (fun _ => []) sample_innerHTML
                (VStr "<b></b><i></i>") (jRna "here")) as (H & _ & _).
    rewrite H; [reflexivity | reflexivity | simpl; lia].
  - destruct (C6_html_checks_template plain_object (fun _ => []) sample_innerHTML
                (VStr "<b></b>") (jRna "here")) as (_ & H & _).
    rewrite (H eq_refl 1%nat [] []); reflexivity.
  - destruct (C6_html_checks_template plain_object (fun _ => []) sample_innerHTML
                (VStr "") (jRna "here")) as (_ & _ & H).
    rewrite H; reflexivity.
Defined.

(** C9: [html()] called with the empty string, or any falsy value, does
    not throw: it validates nothing, leaves [_html] undefined and hands
    the blueprint back; [spawn()] on that blueprint is what throws
    "Trying to spawn with an empty html()". *)
Theorem C9_empty_html_fails_at_spawn
    (StringToNumber : string -> option Z) (ToPrimitive : Val -> Prim)
    (call_fn : nat -> Val -> list Val -> M World Val)
    (select : string -> JQ) (innerHTML : string -> list Node)
    (v : Val) (bp : Blueprint) :
  truthy v = false ->
  exists bp',
    html ToPrimitive select innerHTML v bp = Ok tt bp' /\
    _html bp' = undefined /\
    forall ref args w,
      spawn StringToNumber ToPrimitive call_fn select innerHTML bp' ref args w
      = Throw ("Trying to spawn with an empty html() - jRna@" +:+ origin bp) w.
Proof.
  intros Hv. exists (set_html undefined bp).
  split; [|split].
  - rewrite html_unfold, Hv. reflexivity.
  - reflexivity.
  - intros ref args w. rewrite spawn_empty by reflexivity. reflexivity.
Qed.

Lemma C9_empty_html_fails_at_spawn_witness :
  exists bp',
    html plain_object (fun _ => []) sample_innerHTML (VStr "")
         (state_of (html plain_object (fun _ => []) sample_innerHTML
                         (VStr "<b></b>") (jRna "here"))) = Ok tt bp' /\
    _html bp' = undefined /\
    forall ref args w,
      spawn decimal_to_number plain_object log_call (fun _ => [])
            sample_innerHTML bp' ref args w
      = Throw "Trying to spawn with an empty html() - jRna@here" w.
Proof.
  exact (C9_empty_html_fails_at_spawn decimal_to_number plain_object log_call
           (fun _ => []) sample_innerHTML (VStr "") _ eq_refl).
Defined.

(** ** Loops and sequences that throw *)

Section Throwing.

Context {S : Type}.

Lemma is_ok_bind_l {A B} (m : M S A) (k : A -> M S B) s :
  is_ok (m s) = false -> is_ok (bind m k s) = false.
Proof. unfold bind. by destruct (m s). Qed.




End Throwing.

(** ** Binding *)

Section Binding.

Variable StringToNumber : string -> option Z.
Variable ToPrimitive : Val -> Prim.
Variable call_fn : nat -> Val -> list Val -> M World Val.
Variable select : string -> JQ.

Local Abbreviation attach' := (attach StringToNumber ToPrimitive call_fn select).
Local Abbreviation apply_arg' := (apply_arg StringToNumber ToPrimitive call_fn).
Local Abbreviation populate' := (populate select).
Local Abbreviation resolve' := (resolve select).

Implicit Types (bp : Blueprint) (w : World) (key : string) (v : Val).






Lemma has_key_in (args : Args) key v : (key, v) ∈ args -> has_key key args = true.
Proof.
  unfold has_key. induction args as [|[k x] rest IH]; intros Hin.
  - by apply elem_of_nil in Hin.
  - cbn [assoc_get]. destruct (String.eqb k key) eqn:E; [reflexivity|].
    apply elem_of_cons in Hin as [[= <- <-]|Hin]; [|by apply IH].
    by rewrite String.eqb_refl in E.
Qed.

Lemma has_key_absent (args : Args) key :
  key ∉ args.*1 -> key ∉ inherited_names -> has_key key args = false.
Proof.
  intros Hn Hi. unfold has_key.
  assert (assoc_get key args = None) as ->; [|by apply bool_decide_eq_false_2].
  clear Hi. induction args as [|[k x] rest IH]; [reflexivity|].
  rewrite fmap_cons in Hn. apply not_elem_of_cons in Hn as [Hne Hn].
  cbn [assoc_get]. destruct (String.eqb k key) eqn:E; [|by apply IH].
  apply String.eqb_eq in E. simpl in Hne. congruence.
Qed.

(** An initial value that is no method is skipped when the argument
    object has its name. *)
Lemma initialize_skipped bp (args : Args) key f w :
  key ∉ isMethod bp -> has_key key args = true ->
  initialize bp args (key, f) w = Ok tt w.
Proof.
  intros Hm Hk. unfold initialize. simpl.
  by rewrite bool_decide_eq_false_2, Hk.
Qed.

Lemma initialize_def bp (args : Args) key d w :
  has_key key args = false ->
  initialize bp args (key, FDef d) w = assign_prop key d w.
Proof.
  intros Hk. unfold initialize. simpl. rewrite Hk, Bool.andb_false_r.
  reflexivity.
Qed.

End Binding.




(** ** Receptors *)

Section Receptors.

Variable StringToNumber : string -> option Z.
Variable ToPrimitive : Val -> Prim.
Variable call_fn : nat -> Val -> list Val -> M World Val.
Variable select : string -> JQ.

Implicit Types (bp : Blueprint) (w : World) (id : string) (root : Node).

(** The candidates are the matches in the subtree, the container
    included. *)
Lemma candidates_matches cls root : candidates cls root = matches cls root.
Proof.
  destruct root as [nid classes children|nid data]; [|reflexivity].
  unfold candidates, find. simpl. reflexivity.
Qed.

(** A receptor with no match, or with several, stops its turn of the
    loop before the action of that turn runs. *)
Lemma resolve_needs_one bp root id (action : Action) w :
  (List.length (matches (prefix +:+ id) (tree_now root w)) <> 1)%nat ->
  is_ok (resolve select bp root (id, action) w) = false /\
  state_of (resolve select bp root (id, action) w) = w.
Proof.
  intros Hlen. unfold resolve, bind, get. simpl fst.
  rewrite candidates_matches. unfold checkElement.
  destruct (matches (prefix +:+ id) (tree_now root w)) as [|n [|n' rest]];
    simpl in Hlen; try lia; split; reflexivity.
Qed.

(** A turn that passes binds the receptor to its one match. *)
Lemma resolve_binds bp root id (action : Action) w w' i :
  resolve select bp root (id, action) w = Ok tt w' ->
  inst w' = Some i ->
  exists n, matches (prefix +:+ id) (tree_now root w) = [n] /\
            element i !! id = Some [n].
Proof.
  unfold resolve, bind, get. simpl fst. simpl snd.
  rewrite candidates_matches. unfold checkElement.
  destruct (matches (prefix +:+ id) (tree_now root w)) as [|n [|n' rest]] eqn:E;
    try discriminate.
  simpl. unfold modify. destruct (action [n] w) as [[] w1|]; [|discriminate].
  intros [= <-] Hi. exists n. split; [reflexivity|].
  unfold on_inst in Hi. simpl in Hi.
  destruct (inst w1) as [i1|]; [|discriminate].
  injection Hi as <-. simpl. by rewrite lookup_insert_eq.
Qed.

Lemma checkElement_kept {S} origin (q : JQ) action (s : S) :
  state_of (checkElement select origin (AJQ q) action s) = s.
Proof. unfold checkElement. destruct q as [|n [|n' rest]]; reflexivity. Qed.

Lemma tree_now_ext root w w' :
  container <$> inst w' = container <$> inst w ->
  tree_now root w' = tree_now root w.
Proof.
  unfold tree_now. destruct (inst w'), (inst w); simpl; congruence.
Qed.

(** A turn that passes, with an action that keeps the tree, leaves the
    tree to the next turn as it was. *)
Lemma resolve_keeps_tree bp root id (action : Action) w w' :
  keeps_tree action ->
  resolve select bp root (id, action) w = Ok tt w' ->
  tree_now root w' = tree_now root w.
Proof.
  intros Hk. unfold resolve, bind, get. simpl fst. simpl snd.
  pose proof (checkElement_kept (origin bp)
                (candidates (prefix +:+ id) (tree_now root w))
                ("fulfill ." +:+ (prefix +:+ id) +:+ " with") w) as Hs.
  destruct (checkElement _ _ _ _ w) as [q w0|]; [|discriminate].
  simpl in Hs. subst w0.
  unfold modify. specialize (Hk (candidates (prefix +:+ id) (tree_now root w)) w).
  destruct (action _ w) as [[] w1|]; [|discriminate].
  intros [= <-]. apply tree_now_ext. rewrite <- Hk. simpl.
  by destruct (inst w1).
Qed.

Lemma for_each_fails_under {S A} (I : S -> Prop) (f : A -> M S unit)
    (l : list A) (x : A) :
  x ∈ l ->
  (forall y s s', y ∈ l -> I s -> f y s = Ok tt s' -> I s') ->
  (forall s, I s -> is_ok (f x s) = false) ->
  forall s, I s -> is_ok (for_each f l s) = false.
Proof.
  intros Hin Hkeep Hx. induction l as [|y l IH]; [by apply elem_of_nil in Hin|].
  intros s Hs. simpl. unfold bind.
  apply elem_of_cons in Hin as [<-|Hin].
  - specialize (Hx s Hs). by destruct (f x s).
  - destruct (f y s) as [[] s'|] eqn:E; [|reflexivity].
    apply IH; [exact Hin | | eapply Hkeep; [|exact Hs|exact E]; by left].
    intros z s1 s2 Hz. apply Hkeep. by right.
Qed.

Lemma curry_state {S} origin item spec (s : S) :
  state_of (curry origin item spec s) = s.
Proof.
  unfold curry. destruct (hd undefined (spec_items spec)) as [[]| |]; try reflexivity.
  by destruct (tl (spec_items spec)).
Qed.

(** The actions of the builder methods define properties and register
    listeners; none of them touches the tree. *)
Lemma builder_keeps_tree (a : Action) : builder_action a -> keeps_tree a.
Proof.
  intros Ha q w. destruct Ha; unfold bind, get, modify, emit; simpl;
    try (by destruct (inst w)).
  - pose proof (curry_state org (inst_val w) cb w) as H.
    destruct (curry org (inst_val w) cb w); simpl in *; by subst.
  - pose proof (curry_state org (inst_val w) cb_on w) as H.
    destruct (curry org (inst_val w) cb_on w); simpl in *; subst; [|done].
    pose proof (curry_state org (inst_val w) cb_off w) as H.
    destruct (curry org (inst_val w) cb_off w); simpl in *; by subst.
  - pose proof (curry_state org (inst_val w) cb w) as H.
    destruct (curry org (inst_val w) cb w); simpl in *; by subst.
  - pose proof (curry_state org (inst_val w) cb w) as H.
    destruct (curry org (inst_val w) cb w); simpl in *; by subst.
Qed.

(** [attach] fails when a receptor of the setup queue, named by a plain
    class name, has no match or several in the subtree of the container,
    the setup actions being those of the builder methods, which leave
    that tree as it is. *)
Lemma attach_needs_every_receptor bp ref container (args : Args) id
    (action : Action) w :
  plain_name id = true ->
  (id, action) ∈ _setup bp ->
  (forall id' a, (id', a) ∈ _setup bp -> builder_action a) ->
  (forall root w1,
     checkElement select (origin bp) container "attach to" w = Ok [root] w1 ->
     (List.length (matches (prefix +:+ id) root) <> 1)%nat) ->
  is_ok (attach StringToNumber ToPrimitive call_fn select bp ref container
                args w) = false.
Proof.
  intros _ Hin Hkeep Hlen. unfold attach, bind at 1.
  destruct (checkElement select (origin bp) container "attach to" w)
    as [q w1|] eqn:Hc; [|reflexivity].
  assert (Hq : exists root, q = [root]).
  { unfold checkElement in Hc.
    destruct container as [x|jq].
    - destruct (negb (truthy x)); [discriminate|].
      destruct x as [[| | | | |sel]| |]; try discriminate.
      destruct (select sel) as [|n [|n' rest]]; try discriminate.
      injection Hc as <- _. by exists n.
    - destruct jq as [|n [|n' rest]]; try discriminate.
      injection Hc as <- _. by exists n. }
  destruct Hq as [root ->].
  apply is_ok_bind_l. unfold populate. unfold bind at 1, modify.
  apply is_ok_bind_l.
  apply (for_each_fails_under (fun s => tree_now root s = root) _ _ _ Hin).
  - intros [id' a] s s' Hy Hs Hr. rewrite <- Hs at 2.
    eapply resolve_keeps_tree; [|exact Hr].
    eapply builder_keeps_tree, Hkeep. exact Hy.
  - intros s Hs. apply resolve_needs_one. rewrite Hs. eapply Hlen. reflexivity.
  - reflexivity.
Qed.

End Receptors.

(** C2, at a failing input: [new jRna().click('go', f).output('title')]
    attached to [<div class="jrna-go">], which has no [jrna-title] node.
    The attach call throws for the missing receptor, but by then the
    instance exists, its element map binds [go], and the click listener
    of the first setup action is registered on the container. *)
Theorem C2_resolution_after_setup_actions :
  let r := attach decimal_to_number plain_object log_call (fun _ => [])
             sample_click_output 7 (AJQ [sample_container]) [] empty_world in
  r = Throw "Cannot fulfill .jrna-title with a missing element - jRna@here"
            (state_of r) /\
  (i ← inst (state_of r); element i !! "go") = Some [sample_container] /\
  effects (state_of r)
  = [EOn [sample_container] "click" (LClick (BBind 3 (VO 7)))].
Proof. split; [|split]; reflexivity. Qed.

(** * Further properties of the engine *)

(** ** Elements *)

Section Elements.

Variable select : string -> JQ.

Lemma checkElement_state {S} origin element action (s : S) :
  state_of (checkElement select origin element action s) = s.
Proof.
  unfold checkElement. destruct element as [v|q].
  - destruct (negb (truthy v)); [reflexivity|].
    destruct v as [[| | | | |sel]| |]; try reflexivity.
    destruct (select sel) as [|n [|n' rest]]; reflexivity.
  - destruct q as [|n [|n' rest]]; reflexivity.
Qed.

End Elements.

Lemma checkElement_ok_iff {S : Type} (select : string -> JQ)
    (origin action : string) (element : ElemArg) (q : JQ) (s s' : S) :
  checkElement select origin element action s = Ok q s' <->
  s' = s /\
  exists n, q = [n] /\
    (element = AJQ [n] \/
     exists sel, element = AVal (VStr sel) /\ sel <> "" /\ select sel = [n]).
Proof.
  split.
  - intros H. split.
    + pose proof (checkElement_state select origin element action s) as Hs.
      rewrite H in Hs. exact Hs.
    + unfold checkElement in H. destruct element as [v|jq].
      * destruct (truthy v) eqn:Hv; simpl in H; [|discriminate].
        destruct v as [[| | | | |sel]| |]; try discriminate.
        destruct (select sel) as [|n [|n' rest]] eqn:Hsel; try discriminate.
        injection H as <- _. exists n. split; [reflexivity|]. right.
        exists sel. repeat split; [|exact Hsel].
        intros ->. discriminate.
      * destruct jq as [|n [|n' rest]]; try discriminate.
        injection H as <- _. exists n. split; [reflexivity|]. by left.
  - intros (-> & n & -> & [->|(sel & -> & Hne & Hsel)]).
    + reflexivity.
    + unfold checkElement, VStr. simpl.
      destruct (String.eqb sel "") eqn:E; [by apply String.eqb_eq in E|].
      simpl. rewrite Hsel. reflexivity.
Qed.

(** [checkElement] passes exactly when it is given a jQuery object of
    one node, or a non-empty selector that finds one node; it returns a
    jQuery object of that node and leaves the state alone. *)
Theorem checkElement_one_node {S : Type} (select : string -> JQ)
    (origin action : string) (element : ElemArg) (q : JQ) (s s' : S) :
  checkElement select origin element action s = Ok q s' <->
  s' = s /\
  exists n, q = [n] /\
    (element = AJQ [n] \/
     exists sel, element = AVal (VStr sel) /\ sel <> "" /\ select sel = [n]).
Proof. apply checkElement_ok_iff. Qed.

Lemma checkElement_one_node_witness :
  checkElement (S := World) (fun sel => if String.eqb sel "#root"
                                        then [sample_container] else [])
               "here" (AVal (VStr "#root")) "attach to" empty_world
  = Ok [sample_container] empty_world.
Proof.
  apply checkElement_one_node. split; [reflexivity|].
  exists sample_container. split; [reflexivity|]. right.
  exists "#root". repeat split. discriminate.
Defined.

(** ** Receptor candidates *)

Lemma matches_filter cls :
  forall n, matches cls n = List.filter (has_class cls) (subtree n).
Proof.
  fix IH 1. intros [nid classes children|nid data]; [|reflexivity].
  simpl. destruct (bool_decide (cls ∈ classes)); simpl; [f_equal|].
  - induction children as [|c rest IHc]; simpl; [reflexivity|].
    rewrite List.filter_app, IH, IHc. reflexivity.
  - induction children as [|c rest IHc]; simpl; [reflexivity|].
    rewrite List.filter_app, IH, IHc. reflexivity.
Qed.

(** ** Attaching *)

Section Attaching.

Variable StringToNumber : string -> option Z.
Variable ToPrimitive : Val -> Prim.
Variable call_fn : nat -> Val -> list Val -> M World Val.
Variable select : string -> JQ.

Local Abbreviation attach' := (attach StringToNumber ToPrimitive call_fn select).
Local Abbreviation apply_arg' := (apply_arg StringToNumber ToPrimitive call_fn).

Implicit Types (bp : Blueprint) (w : World) (i : Inst) (key : string) (v : Val).

Lemma apply_arg_plain bp key v w i :
  inst w = Some i ->
  key ∈ allowArgs bp -> truthy (prop (assignArgs bp) key) = true ->
  key ∉ isMethod bp -> plain_slot (props i !! key) ->
  apply_arg' bp (key, v) w
  = Ok tt (mkWorld (Some (with_props (<[key := SData v]> (props i)) i))
                   (effects w)).
Proof.
  intros Hi Ha Hs Hm Hp. unfold apply_arg. simpl.
  rewrite bool_decide_eq_true_2 by done. simpl. rewrite Hs. simpl.
  rewrite bool_decide_eq_false_2 by done.
  unfold assign_prop, bind, get, slot_of. rewrite Hi. simpl.
  destruct (props i !! key) as [[]|]; simpl in Hp; try contradiction;
    unfold modify, on_inst; rewrite Hi; reflexivity.
Qed.

Lemma args_loop_plain bp (args : Args) :
  forall w i,
  inst w = Some i ->
  (forall key, key ∈ (args.*1) ->
     key ∈ allowArgs bp /\ truthy (prop (assignArgs bp) key) = true /\
     (key ∉ isMethod bp) /\ plain_slot (props i !! key)) ->
  for_each (apply_arg' bp) args w
  = Ok tt (mkWorld (Some (with_props (write_args args (props i)) i)) (effects w)).
Proof.
  induction args as [|[key v] rest IH]; intros w i Hi Hall.
  - simpl. unfold ret. destruct w as [iw ew], i; simpl in *. by rewrite Hi.
  - simpl. unfold bind.
    destruct (Hall key) as (Ha & Hs & Hm & Hp); [simpl; apply elem_of_cons; by left|].
    rewrite (apply_arg_plain bp key v w i Hi Ha Hs Hm Hp).
    rewrite (IH _ (with_props (<[key := SData v]> (props i)) i)); [reflexivity..|].
    intros k Hk. destruct (Hall k) as (Ha' & Hs' & Hm' & Hp');
      [simpl; apply elem_of_cons; by right|].
    repeat split; try done. simpl.
    destruct (decide (key = k)) as [->|Hne].
    + by rewrite lookup_insert_eq.
    + by rewrite lookup_insert_ne.
Qed.

Lemma write_args_notin (args : Args) m key :
  key ∉ (args.*1) -> write_args args m !! key = m !! key.
Proof.
  revert m. induction args as [|[k v] rest IH]; intros m Hn; [reflexivity|].
  simpl in *. apply not_elem_of_cons in Hn as [Hne Hn].
  rewrite IH by done. apply lookup_insert_ne. congruence.
Qed.

Lemma write_args_in (args : Args) m key v :
  NoDup (args.*1) -> (key, v) ∈ args -> write_args args m !! key = Some (SData v).
Proof.
  revert m. induction args as [|[k x] rest IH]; intros m Hnd Hin.
  - by apply elem_of_nil in Hin.
  - simpl in *. apply NoDup_cons in Hnd as [Hk Hnd].
    apply elem_of_cons in Hin as [[= -> ->]|Hin].
    + rewrite write_args_notin by done. apply lookup_insert_eq.
    + by apply IH.
Qed.

End Attaching.

(** [attach] given a container that is not one node throws what
    [checkElement] throws and leaves the world as it found it: no
    instance is made, no setup action runs. *)
Theorem attach_bad_container
    (StringToNumber : string -> option Z) (ToPrimitive : Val -> Prim)
    (call_fn : nat -> Val -> list Val -> M World Val) (select : string -> JQ)
    (bp : Blueprint) (ref : nat) (container : ElemArg) (args : Args) (w : World) :
  (forall n, container <> AJQ [n] /\
             forall sel, container = AVal (VStr sel) -> sel <> "" ->
                         select sel <> [n]) ->
  exists e,
    checkElement select (origin bp) container "attach to" w = Throw e w /\
    attach StringToNumber ToPrimitive call_fn select bp ref container args w
    = Throw e w.
Proof.
  intros Hbad.
  destruct (checkElement select (origin bp) container "attach to" w)
    as [q w'|e w'] eqn:Hc.
  - apply checkElement_ok_iff in Hc as (_ & n & _ & [->|(sel & -> & Hne & Hs)]).
    + by destruct (Hbad n) as [H _].
    + destruct (Hbad n) as [_ H]. by destruct (H sel eq_refl Hne).
  - pose proof (checkElement_state select (origin bp) container "attach to" w)
      as Hs. rewrite Hc in Hs. simpl in Hs. subst w'.
    exists e. split; [reflexivity|]. unfold attach, bind. by rewrite Hc.
Qed.

Lemma attach_bad_container_witness :
  exists e,
    checkElement (fun _ => []) "here" (AVal (VStr "#nowhere")) "attach to"
                 empty_world = Throw e empty_world /\
    attach decimal_to_number plain_object log_call (fun _ => []) sample_click 7
           (AVal (VStr "#nowhere")) [] empty_world
    = Throw e empty_world.
Proof.
  apply (attach_bad_container decimal_to_number plain_object log_call
           (fun _ => []) sample_click 7 (AVal (VStr "#nowhere")) [] empty_world).
  intros n. split; [discriminate|]. intros sel _ _. discriminate.
Defined.

(** The argument loop writes what it is given: when the keys are
    distinct, allowed, assignable, no methods and no properties with a
    setter, the loop passes, every key holds its value afterwards, the
    other properties, the container and the element map are as before,
    and nothing is written to the render tree. *)
Theorem args_are_written
    (StringToNumber : string -> option Z) (ToPrimitive : Val -> Prim)
    (call_fn : nat -> Val -> list Val -> M World Val)
    (bp : Blueprint) (args : Args) (w : World) (i : Inst) :
  inst w = Some i ->
  NoDup (args.*1) ->
  (forall key, key ∈ (args.*1) ->
     key ∈ allowArgs bp /\ truthy (prop (assignArgs bp) key) = true /\
     (key ∉ isMethod bp) /\ plain_slot (props i !! key)) ->
  exists i',
    for_each (apply_arg StringToNumber ToPrimitive call_fn bp) args w
    = Ok tt (mkWorld (Some i') (effects w)) /\
    (forall key v, (key, v) ∈ args -> props i' !! key = Some (SData v)) /\
    (forall key, key ∉ (args.*1) -> props i' !! key = props i !! key) /\
    container i' = container i /\ element i' = element i.
Proof.
  intros Hi Hnd Hall. exists (with_props (write_args args (props i)) i).
  split; [by apply args_loop_plain|]. split; [|split; [|split]].
  - intros key v Hin. by apply write_args_in.
  - intros key Hn. by apply write_args_notin.
  - reflexivity.
  - reflexivity.
Qed.

Lemma args_are_written_witness :
  let bp := state_of (args ["size"] (jRna "here")) in
  let w := mkWorld (Some (fresh_inst bp 7 [sample_container])) [] in
  exists i',
    for_each (apply_arg decimal_to_number plain_object log_call bp)
             [("size", VNum 3); ("id", VStr "x")] w
    = Ok tt (mkWorld (Some i') []) /\
    props i' !! "size" = Some (SData (VNum 3)) /\
    props i' !! "id" = Some (SData (VStr "x")).
Proof.
  intros bp w.
  destruct (args_are_written decimal_to_number plain_object log_call bp
              [("size", VNum 3); ("id", VStr "x")] w
              (fresh_inst bp 7 [sample_container]) eq_refl)
    as (i' & Hrun & Hin & _).
  - apply (bool_decide_unpack _). vm_compute. exact I.
  - intros key Hk. simpl in Hk.
    apply elem_of_cons in Hk as [->|Hk];
      [|apply list_elem_of_singleton in Hk as ->];
      (split; [apply (bool_decide_unpack _); vm_compute; exact I|]);
      (split; [reflexivity|]);
      (split; [apply (bool_decide_unpack _); vm_compute; exact I|]);
      exact I.
  - exists i'. split; [exact Hrun|]. split; apply Hin.
    + apply elem_of_cons. by left.
    + apply elem_of_cons. right. by apply list_elem_of_singleton.
Defined.

(** An assignable argument whose name is a method is handed to the
    method instead of being assigned.  For a method made by [def] the
    function is called with the value and the instance as receiver; for
    a sticky state machine the value is the target state, so a target
    that differs from the state and names a handler runs that handler on
    the old and the new state and moves the machine there. *)
Theorem method_arguments_are_calls
    (StringToNumber : string -> option Z) (ToPrimitive : Val -> Prim)
    (call_fn : nat -> Val -> list Val -> M World Val)
    (bp : Blueprint) (key : string) (v : Val) (w : World) (i : Inst) :
  inst w = Some i ->
  key ∈ allowArgs bp -> truthy (prop (assignArgs bp) key) = true ->
  key ∈ isMethod bp ->
  (forall f, props i !! key = Some (SData (VF f)) ->
     apply_arg StringToNumber ToPrimitive call_fn bp (key, v) w
     = match call_fn f (VO (self i)) [v] w with
       | Ok _ w' => Ok tt w'
       | Throw e w' => Throw e w'
       end) /\
  (forall name action_hash s f,
     props i !! key = Some (SMachine name action_hash s) ->
     v <> undefined ->
     loose_eq StringToNumber ToPrimitive v s = false ->
     action_hash !! to_string ToPrimitive v = Some (VF f) ->
     apply_arg StringToNumber ToPrimitive call_fn bp (key, v) w
     = match call_fn f (VO (self i)) [s; v] w with
       | Ok _ w' =>
           Ok tt (on_inst (set_prop key (SMachine name action_hash v)) w')
       | Throw e w' =>
           Throw e (on_inst (set_prop key (SMachine name action_hash s)) w')
       end).
Proof.
  intros Hi Ha Hs Hm.
  assert (Hstep : apply_arg StringToNumber ToPrimitive call_fn bp (key, v) w
                  = call_method StringToNumber ToPrimitive call_fn (origin bp)
                                key v w).
  { unfold apply_arg. simpl. rewrite bool_decide_eq_true_2 by done. simpl.
    rewrite Hs. simpl. by rewrite bool_decide_eq_true_2. }
  rewrite Hstep. unfold call_method, bind, get, slot_of, inst_val.
  rewrite Hi. simpl. split.
  - intros f ->. destruct (call_fn f (VO (self i)) [v] w); reflexivity.
  - intros name action_hash s f -> Hu Hl Hf.
    rewrite (machine_switch StringToNumber ToPrimitive call_fn (origin bp) name
               action_hash (VO (self i)) v s w f Hu Hl (prop_own _ _ _ Hf)).
    destruct (call_fn f (VO (self i)) [s; v] w); reflexivity.
Qed.

Lemma method_arguments_are_calls_witness :
  let bp := state_of (args ["isDone"]
              (state_of (stickyState plain_object "isDone"
                           {[ "true" := VF 3 ]} undefined (jRna "here")))) in
  let machine s := SMachine "isDone" {[ "true" := VF 3 ]} s in
  let i s := mkInst 7 [sample_container] ∅ {[ "isDone" := machine s ]} [] in
  apply_arg decimal_to_number plain_object log_call bp ("isDone", VBool true)
            (mkWorld (Some (i undefined)) [])
  = Ok tt (mkWorld (Some (i (VBool true)))
                   [ECall 3 (VO 7) [undefined; VBool true]]).
Proof.
  intros bp machine i.
  destruct (method_arguments_are_calls decimal_to_number plain_object log_call
              bp "isDone" (VBool true) (mkWorld (Some (i undefined)) [])
              (i undefined) eq_refl) as (_ & H).
  - apply (bool_decide_unpack _). vm_compute. exact I.
  - reflexivity.
  - apply (bool_decide_unpack _). vm_compute. exact I.
  - rewrite (H "isDone" {[ "true" := VF 3 ]} undefined 3%nat);
      [| reflexivity | discriminate | reflexivity | reflexivity].
    simpl. unfold on_inst, set_prop, i, machine. simpl.
    rewrite insert_singleton_eq. reflexivity.
Defined.

(** ** A text binding from declaration to render tree *)

Lemma not_inherited name : name ∉ inherited_names -> inherited name = undefined.
Proof.
  intros H. unfold inherited, inherited_names in *.
  apply not_elem_of_dom in H. by rewrite H.
Qed.

Lemma fresh_name_unknown org name :
  name ∉ reserved -> name ∉ inherited_names ->
  prop (_known (jRna org)) name = undefined.
Proof.
  intros H Hi. unfold prop, jRna, all_true; cbn [_known].
  rewrite (not_elem_of_list_to_map_1 _ name); [by apply not_inherited|].
  rewrite <- list_fmap_compose. by rewrite list_fmap_id.
Qed.

Lemma fresh_name_allowed org name :
  name ∉ reserved -> name ∉ inherited_names -> name ∉ noArgs (jRna org).
Proof.
  intros H Hi. unfold jRna; cbn [noArgs].
  rewrite elem_of_union, elem_of_list_to_set. tauto.
Qed.

(** A blueprint that declares [output(id)] and [args(id)], for a plain
    class name [id] that is neither reserved nor inherited by every
    object, attached to a container in whose subtree one node carries the
    receptor class, with the argument [id] set to a value [v] that is
    neither [undefined] nor a function: the attach passes, the node's
    text is set to [v] and nothing else is written, the instance holds
    [v] under [id], and its element map binds [id] to the node. *)
Theorem output_argument_sets_text
    (StringToNumber : string -> option Z) (ToPrimitive : Val -> Prim)
    (call_fn : nat -> Val -> list Val -> M World Val) (select : string -> JQ)
    (org id : string) (v : Val) (root n : Node) (ref : nat) (w : World) :
  plain_name id = true ->
  id ∉ reserved -> id ∉ inherited_names ->
  v <> undefined -> is_function v = false ->
  matches (prefix +:+ id) root = [n] ->
  let bp := state_of (args [id] (state_of (output id None (jRna org)))) in
  exists i,
    attach StringToNumber ToPrimitive call_fn select bp ref (AJQ [root])
           [(id, v)] w
    = Ok (VO ref) (mkWorld (Some i) (effects w ++ [EText [n] v])%list) /\
    props i !! id = Some (SOutput false [n] v) /\
    element i !! id = Some [n] /\
    container i = [root].
Proof.
  intros _ Hr Hinh Hv _ Hm bp.
  assert (Hout : exists action,
             output id None (jRna org)
             = Ok tt (set_setup [(id, action)]
                        (set_known (<[id := VBool true]> (_known (jRna org)))
                                   (jRna org))) /\
             forall q, action q
                       = modify (on_inst (set_prop id (SOutput false q undefined)))).
  { eexists. split; [|intros q; reflexivity].
    unfold output, bind, name_or, setup, modify. rewrite lockName_unfold.
    rewrite (fresh_name_unknown org id Hr Hinh). reflexivity. }
  destruct Hout as (action & Hout & Hact).
  assert (Hbp : exists bp', bp = bp' /\
             origin bp' = org /\ _setup bp' = [(id, action)] /\ _init bp' = [] /\
             _onAttach bp' = [] /\ isMethod bp' = inherited_names /\
             id ∈ allowArgs bp' /\ prop (assignArgs bp') id = VBool true).
  { eexists. split.
    - unfold bp. rewrite Hout. cbn [state_of]. unfold args. cbn [for_each].
      unfold bind. rewrite addArgument_unfold. cbn [forbidden truthy undefined].
      rewrite bool_decide_eq_false_2
        by (apply (fresh_name_allowed org id Hr Hinh)).
      reflexivity.
    - simpl. repeat split; try reflexivity.
      + apply elem_of_union_l. by apply elem_of_singleton.
      + unfold prop. by rewrite lookup_insert_eq. }
  destruct Hbp as (bp' & -> & Ho & Hs & Hi & Hh & Hme & Hal & Has).
  unfold attach, bind at 1. simpl checkElement. unfold ret at 1.
  unfold populate, bind, modify, ret. rewrite Hs, Hi, Hh. simpl.
  unfold resolve, bind, get. rewrite candidates_matches.
  unfold tree_now. simpl. rewrite Hm. simpl.
  rewrite Hact. unfold modify, ret. simpl.
  unfold apply_arg. simpl. rewrite bool_decide_eq_true_2 by done. simpl.
  rewrite Has. simpl. rewrite Hme.
  rewrite bool_decide_eq_false_2 by done.
  unfold assign_prop, bind, get, slot_of. simpl. rewrite lookup_insert_eq.
  simpl. rewrite (is_undefined_false _ Hv). simpl.
  eexists. split; [reflexivity|]. simpl.
  split; [by rewrite lookup_insert_eq|]. split; [by rewrite lookup_insert_eq|].
  reflexivity.
Qed.

Lemma output_argument_sets_text_witness :
  let child := Element 2 ["jrna-title"] [] in
  let root := Element 1 [] [child] in
  let bp := state_of (args ["title"] (state_of (output "title" None (jRna "here")))) in
  exists i,
    attach decimal_to_number plain_object log_call (fun _ => []) bp 7
           (AJQ [root]) [("title", VStr "Ship it")] empty_world
    = Ok (VO 7) (mkWorld (Some i) [EText [child] (VStr "Ship it")]) /\
    props i !! "title" = Some (SOutput false [child] (VStr "Ship it")) /\
    element i !! "title" = Some [child] /\
    container i = [root].
Proof.
  intros child root bp.
  apply (output_argument_sets_text decimal_to_number plain_object log_call
           (fun _ => []) "here" "title" (VStr "Ship it") root child 7
           empty_world).
  - reflexivity.
  - apply (bool_decide_unpack _). vm_compute. exact I.
  - apply (bool_decide_unpack _). vm_compute. exact I.
  - discriminate.
  - reflexivity.
  - reflexivity.
Defined.

(** ** What every declaration keeps *)

Section Declarations.

Variable ToPrimitive : Val -> Prim.
Variable select : string -> JQ.
Variable innerHTML : string -> list Node.
Variable outerHTML : Node -> string.

Lemma parseHTML_state {S} v (s : S) :
  state_of (parseHTML ToPrimitive innerHTML v s) = s.
Proof.
  unfold parseHTML. destruct (innerHTML _) as [|n [|n' rest]]; reflexivity.
Qed.

Section Along_declare.

Variable R : Blueprint -> Blueprint -> Prop.
Hypothesis R_refl : forall s, R s s.
Hypothesis R_trans : forall a b c, R a b -> R b c -> R a c.
Hypothesis R_lockName : forall name shared, along R (lockName name shared).
Hypothesis R_addArgument : forall name spec, along R (addArgument name spec).
Hypothesis R_setup : forall x s, R s (set_setup (_setup s ++ [x])%list s).
Hypothesis R_html : forall v s, R s (set_html v s).
Hypothesis R_onAttach : forall f s, R s (set_onAttach (_onAttach s ++ [f])%list s).
Hypothesis R_onRemove :
  forall cb s, R s (set_onRemove (callbacks_onRemove s ++ [cb])%list s).

Lemma along_pure {A} (m : M Blueprint A) :
  (forall s, state_of (m s) = s) -> along R m.
Proof. intros H s. rewrite H. apply R_refl. Qed.

Ltac along_step :=
  first
    [ apply R_lockName
    | apply R_addArgument
    | apply (along_ret R R_refl)
    | apply (along_get R R_refl)
    | apply (along_throw R R_refl)
    | apply along_pure; intros ?; reflexivity
    | apply along_pure; intros ?; apply checkElement_state
    | apply along_pure; intros ?; apply parseHTML_state
    | apply along_modify; intros ?;
      first [ apply R_setup | apply R_html
            | apply R_onAttach | apply R_onRemove ]
    | apply along_if
    | apply (along_for_each R R_refl R_trans); intros ?
    | apply (along_bind R R_trans); [|intros ?] ].

Lemma declare_along_other d :
  is_init_decl d = false ->
  along R (declare ToPrimitive select innerHTML outerHTML d).
Proof.
  destruct d; simpl; try discriminate; intros _.
  - along_step.
  - unfold html. repeat along_step.
  - unfold htmlFrom. repeat along_step.
    match goal with |- along R (match ?q with _ => _ end) => destruct q end;
      repeat along_step.
  - along_step.
  - unfold args. repeat along_step.
  - unfold setup. repeat along_step.
  - unfold output, setup. repeat along_step.
  - unfold rawOutput, setup. repeat along_step.
  - unfold input, setup. repeat along_step.
  - unfold click, setup. repeat along_step.
  - unfold toggle, setup. repeat along_step.
  - unfold stickyClick, setup. repeat along_step.
  - unfold element_, setup. repeat along_step.
  - unfold upload, setup. repeat along_step.
  - unfold on, setup. repeat along_step.
  - unfold onAttach. repeat along_step.
  - unfold onRemove. repeat along_step.
Qed.

Hypothesis R_init : forall m l s, R s (set_init m l s).

Lemma declare_along d :
  along R (declare ToPrimitive select innerHTML outerHTML d).
Proof.
  destruct (is_init_decl d) eqn:E; [|by apply declare_along_other].
  destruct d; try discriminate; simpl.
  - unfold def. repeat along_step; apply along_modify; intros ?; apply R_init.
  - unfold init, init_with.
    repeat along_step; apply along_modify; intros ?; apply R_init.
  - unfold stickyState, init_with, blame.
    repeat along_step; apply along_modify; intros ?; apply R_init.
Qed.

Lemma declare_all_along ds bp :
  R bp (declare_all ToPrimitive select innerHTML outerHTML ds bp).
Proof.
  revert bp. induction ds as [|d ds IH]; intros bp; simpl; [apply R_refl|].
  eapply R_trans; [apply (declare_along d bp) | apply IH].
Qed.

End Along_declare.

End Declarations.

Section Invariants.

Variable ToPrimitive : Val -> Prim.
Variable select : string -> JQ.
Variable innerHTML : string -> list Node.
Variable outerHTML : Node -> string.

Local Abbreviation declare' := (declare ToPrimitive select innerHTML outerHTML).
Local Abbreviation declare_all' :=
  (declare_all ToPrimitive select innerHTML outerHTML).
Local Abbreviation Built' := (Built ToPrimitive select innerHTML outerHTML).

(** *** Locks *)

Lemma tags_refl bp : tags_kept bp bp.
Proof. intros name _. reflexivity. Qed.

Lemma tags_trans a b c : tags_kept a b -> tags_kept b c -> tags_kept a c.
Proof.
  intros Hab Hbc name Ha. rewrite <- (Hab name Ha). apply Hbc.
  by rewrite (Hab name Ha).
Qed.

Lemma tags_lockName name shared : along tags_kept (lockName name shared).
Proof.
  intros bp. rewrite lockName_unfold.
  destruct (truthy (prop (_known bp) name)) eqn:Ht; simpl;
    [destruct (strict_eq (prop (_known bp) name) shared) eqn:Hs; simpl|].
  - intros n Hn. unfold prop at 1. simpl.
    destruct (decide (name = n)) as [<-|Hne].
    + rewrite lookup_insert_eq. simpl.
      apply strict_eq_true in Hs. rewrite <- Hs.
      unfold or_else. by rewrite Ht.
    + by rewrite lookup_insert_ne.
  - apply tags_refl.
  - intros n Hn. unfold prop at 1. simpl.
    destruct (decide (name = n)) as [<-|Hne]; [congruence|].
    by rewrite lookup_insert_ne.
Qed.

Lemma tags_addArgument name spec : along tags_kept (addArgument name spec).
Proof.
  intros bp. rewrite addArgument_unfold.
  destruct (truthy (forbidden spec)); case_bool_decide; intros n _; reflexivity.
Qed.

Lemma tags_declare d : along tags_kept (declare' d).
Proof.
  apply (declare_along _ _ _ _ tags_kept tags_refl tags_trans tags_lockName
           tags_addArgument);
    intros; intros n _; reflexivity.
Qed.

Lemma tags_declare_all ds bp : tags_kept bp (declare_all' ds bp).
Proof.
  apply (declare_all_along _ _ _ _ tags_kept tags_refl tags_trans tags_lockName
           tags_addArgument);
    intros; intros n _; reflexivity.
Qed.

Lemma lockName_locked name shared bp :
  truthy (prop (_known bp) name) = true ->
  shared <> prop (_known bp) name ->
  lockName name shared bp
  = Throw ("Property name already in use: " +:+ name +:+ " - jRna@"
           +:+ origin bp) bp.
Proof.
  intros Ht Hne. rewrite lockName_unfold, Ht.
  rewrite strict_eq_false by congruence. reflexivity.
Qed.

Lemma Built_reserved_locked bp name :
  Built' bp -> name ∈ reserved -> prop (_known bp) name = VBool true.
Proof.
  induction 1 as [org|bp d _ IH]; intros Hr.
  - by apply reserved_known.
  - rewrite (tags_declare d bp name); rewrite (IH Hr); reflexivity.
Qed.

(** *** Queues *)

Lemma queues_refl bp : queues_kept bp bp.
Proof. repeat split; reflexivity. Qed.

Lemma queues_trans a b c : queues_kept a b -> queues_kept b c -> queues_kept a c.
Proof.
  intros (H1 & H2 & H3 & H4) (K1 & K2 & K3 & K4).
  repeat split; [congruence | by etrans..].
Qed.

Lemma queues_lockName name shared : along queues_kept (lockName name shared).
Proof.
  intros bp. rewrite lockName_unfold.
  destruct (_ && _); repeat split; reflexivity.
Qed.

Lemma queues_addArgument name spec : along queues_kept (addArgument name spec).
Proof.
  intros bp. rewrite addArgument_unfold.
  destruct (truthy (forbidden spec)); case_bool_decide;
    repeat split; reflexivity.
Qed.

Lemma queues_declare_all ds bp : queues_kept bp (declare_all' ds bp).
Proof.
  apply (declare_all_along _ _ _ _ queues_kept queues_refl queues_trans
           queues_lockName queues_addArgument);
    intros; repeat split; simpl; try reflexivity; by apply prefix_app_r.
Qed.

End Invariants.

(** ** The setup queue *)

Section Queue.

Variable ToPrimitive : Val -> Prim.
Variable select : string -> JQ.
Variable innerHTML : string -> list Node.
Variable outerHTML : Node -> string.

Lemma builder_step_refl bp : builder_step bp bp.
Proof. by intros H. Qed.

Lemma builder_step_trans a b c :
  builder_step a b -> builder_step b c -> builder_step a c.
Proof. unfold builder_step. tauto. Qed.

Lemma builder_step_same a b : _setup b = _setup a -> builder_step a b.
Proof. intros H Ha id x. rewrite H. apply Ha. Qed.

Lemma builder_step_push id x s :
  builder_action x -> builder_step s (set_setup (_setup s ++ [(id, x)])%list s).
Proof.
  intros Hx Hs id' a Hin. cbn [_setup set_setup] in Hin.
  apply elem_of_app in Hin as [Hin|Hin]; [by eapply Hs|].
  apply list_elem_of_singleton in Hin. by injection Hin as _ ->.
Qed.

Lemma builder_lockName name shared : along builder_step (lockName name shared).
Proof.
  intros bp. rewrite lockName_unfold.
  destruct (_ && _); by apply builder_step_same.
Qed.

Lemma builder_addArgument name spec :
  along builder_step (addArgument name spec).
Proof.
  intros bp. rewrite addArgument_unfold.
  destruct (truthy (forbidden spec)); case_bool_decide;
    by apply builder_step_same.
Qed.

Ltac builder_tac :=
  first
    [ apply builder_lockName
    | apply builder_addArgument
    | apply (along_ret builder_step builder_step_refl)
    | apply (along_get builder_step builder_step_refl)
    | apply (along_throw builder_step builder_step_refl)
    | apply (along_pure builder_step builder_step_refl); intros ?; reflexivity
    | apply (along_pure builder_step builder_step_refl); intros ?;
      apply checkElement_state
    | apply (along_pure builder_step builder_step_refl); intros ?;
      apply parseHTML_state
    | apply along_modify; intros ?;
      first [ apply builder_step_push; constructor
            | apply builder_step_same; reflexivity ]
    | apply along_if
    | apply (along_for_each builder_step builder_step_refl builder_step_trans);
      intros ?
    | apply (along_bind builder_step builder_step_trans); [|intros ?] ].

Lemma builder_declare d :
  is_custom d = false ->
  along builder_step (declare ToPrimitive select innerHTML outerHTML d).
Proof.
  destruct d; simpl; try discriminate; intros _.
  - builder_tac.
  - unfold html. repeat builder_tac.
  - unfold htmlFrom. repeat builder_tac.
    match goal with |- along _ (match ?q with _ => _ end) => destruct q end;
      repeat builder_tac.
  - builder_tac.
  - unfold args. repeat builder_tac.
  - unfold output, setup. repeat builder_tac.
  - unfold rawOutput, setup. repeat builder_tac.
  - unfold input, setup. repeat builder_tac.
  - unfold click, setup. repeat builder_tac.
  - unfold toggle, setup. repeat builder_tac.
  - unfold stickyClick, setup. repeat builder_tac.
  - unfold element_, setup. repeat builder_tac.
  - unfold upload, setup. repeat builder_tac.
  - unfold on, setup. repeat builder_tac.
  - unfold def. repeat builder_tac.
  - unfold init, init_with. repeat builder_tac.
  - unfold stickyState, init_with, blame. repeat builder_tac.
  - unfold onAttach. repeat builder_tac.
  - unfold onRemove. repeat builder_tac.
Qed.

(** A blueprint declared without [setup] has the actions of the builder
    methods only. *)
Lemma declared_without_setup ds org :
  forallb (fun d => negb (is_custom d)) ds = true ->
  builder_made (declare_all ToPrimitive select innerHTML outerHTML ds (jRna org)).
Proof.
  assert (H : forall bp, forallb (fun d => negb (is_custom d)) ds = true ->
                         builder_made bp ->
                         builder_made (declare_all ToPrimitive select innerHTML
                                                   outerHTML ds bp)).
  { induction ds as [|d ds IH]; intros bp Hds Hbp; [exact Hbp|].
    cbn [forallb] in Hds. apply andb_true_iff in Hds as [Hd Hds].
    cbn [declare_all foldl]. apply (IH _ Hds).
    apply (builder_declare d); [by apply negb_true_iff | exact Hbp]. }
  intros Hds. apply H; [exact Hds|]. intros id a Hin.
  by apply elem_of_nil in Hin.
Qed.

End Queue.

Lemma attach_needs_every_receptor_witness :
  is_ok (attach decimal_to_number plain_object log_call (fun _ => [])
                sample_click 7
                (AJQ [Element 1 [] [Element 2 ["jrna-go"] [];
                                     Element 3 ["jrna-go"] []]])
                [] empty_world) = false.
Proof.
  apply (attach_needs_every_receptor decimal_to_number plain_object log_call
           (fun _ => []) sample_click 7 _ [] "go"
           (snd (List.hd ("", fun _ => ret tt) (_setup sample_click)))).
  - reflexivity.
  - apply list_elem_of_singleton. reflexivity.
  - apply (declared_without_setup plain_object (fun _ => []) (fun _ => [])
             (fun _ => "") [DClick "go" (CbOne (VF 3))] "here").
    reflexivity.
  - intros root w1 [= <- _]. simpl. lia.
Defined.

(** A lock is for good: whatever is declared afterwards, thrown or not,
    a locked name keeps its tag, and locking it with any other tag, or
    with none, throws. *)
Theorem locks_are_permanent
    (ToPrimitive : Val -> Prim) (select : string -> JQ)
    (innerHTML : string -> list Node) (outerHTML : Node -> string)
    (ds : list Decl) (bp : Blueprint) (name : string) :
  truthy (prop (_known bp) name) = true ->
  let bp' := declare_all ToPrimitive select innerHTML outerHTML ds bp in
  prop (_known bp') name = prop (_known bp) name /\
  forall shared, shared <> prop (_known bp) name ->
    lockName name shared bp'
    = Throw ("Property name already in use: " +:+ name +:+ " - jRna@"
             +:+ origin bp') bp'.
Proof.
  intros Ht bp'.
  pose proof (tags_declare_all ToPrimitive select innerHTML outerHTML ds bp
                name Ht) as Hk.
  split; [exact Hk|]. intros shared Hne. subst bp'.
  apply lockName_locked; rewrite Hk; assumption.
Qed.

Lemma locks_are_permanent_witness :
  let bp := state_of (stickyClick "edit" "editLock" (CbOne (VF 3)) (jRna "here")) in
  let bp' := declare_all plain_object (fun _ => []) (fun _ => []) (fun _ => "")
               [DOutput "title" None;
                DStickyClick "add" "editLock" (CbOne (VF 4));
                DDef "editLock" (VBool false)] bp in
  prop (_known bp') "editLock" = VStr "stickyClick" /\
  is_ok (lockName "editLock" undefined bp') = false.
Proof.
  intros bp bp'.
  destruct (locks_are_permanent plain_object (fun _ => []) (fun _ => [])
              (fun _ => "")
              [DOutput "title" None;
               DStickyClick "add" "editLock" (CbOne (VF 4));
               DDef "editLock" (VBool false)] bp "editLock" eq_refl)
    as (Hk & Hl).
  split; [exact Hk|]. fold bp' in Hl. rewrite (Hl undefined); [reflexivity|].
  discriminate.
Defined.

(** On every blueprint built from [new jRna()], a declaration that
    claims one of the reserved names as its property name fails, be it
    [output], [rawOutput], [input], [element], [upload], [stickyClick],
    [def], [init] or [stickyState]. *)
Theorem reserved_names_cannot_be_declared
    (ToPrimitive : Val -> Prim) (select : string -> JQ)
    (innerHTML : string -> list Node) (outerHTML : Node -> string)
    (bp : Blueprint) (d : Decl) (name : string) :
  Built ToPrimitive select innerHTML outerHTML bp ->
  name ∈ reserved ->
  declared_name d = Some name ->
  is_ok (declare ToPrimitive select innerHTML outerHTML d bp) = false.
Proof.
  intros HB Hr Hd.
  pose proof (Built_reserved_locked _ _ _ _ bp name HB Hr) as Hk.
  assert (Hlock : forall shared, shared <> VBool true ->
            is_ok (lockName name shared bp) = false).
  { intros shared Hne. rewrite lockName_locked; [reflexivity| |];
      rewrite Hk; [reflexivity | exact Hne]. }
  assert (Hu : is_ok (lockName name undefined bp) = false)
    by (apply Hlock; discriminate).
  destruct d; simpl in Hd; try discriminate; injection Hd as Hd; simpl.
  - unfold output. rewrite Hd. by apply is_ok_bind_l.
  - unfold rawOutput. rewrite Hd. by apply is_ok_bind_l.
  - unfold input. rewrite Hd. by apply is_ok_bind_l.
  - subst. unfold stickyClick, bind at 1, get. apply is_ok_bind_l.
    apply Hlock. discriminate.
  - unfold element_. rewrite Hd. by apply is_ok_bind_l.
  - unfold upload. rewrite Hd. by apply is_ok_bind_l.
  - subst. unfold def. by apply is_ok_bind_l.
  - subst. unfold init, init_with. by apply is_ok_bind_l.
  - subst. unfold stickyState. unfold bind at 1.
    destruct (negb (is_undefined initial) && _); [reflexivity|].
    unfold ret, bind at 1, modify. unfold init_with. apply is_ok_bind_l.
    rewrite lockName_locked; [reflexivity| |]; simpl; rewrite Hk;
      [reflexivity | discriminate].
Qed.

Lemma reserved_names_cannot_be_declared_witness :
  let bp := state_of (output "title" None (jRna "here")) in
  is_ok (def "remove" (VF 3) bp) = false /\
  is_ok (output "status" (Some "container") bp) = false.
Proof.
  intros bp.
  assert (HB : Built plain_object (fun _ => []) (fun _ => []) (fun _ => "") bp)
    by apply (Built_declare _ _ _ _ _ (DOutput "title" None)), Built_new.
  split.
  - apply (reserved_names_cannot_be_declared plain_object (fun _ => [])
             (fun _ => []) (fun _ => "") bp (DDef "remove" (VF 3)) "remove" HB);
      [|reflexivity]. apply (bool_decide_unpack _). vm_compute. exact I.
  - apply (reserved_names_cannot_be_declared plain_object (fun _ => [])
             (fun _ => []) (fun _ => "") bp
             (DOutput "status" (Some "container")) "container" HB);
      [|reflexivity]. apply (bool_decide_unpack _). vm_compute. exact I.
Defined.

(** Declarations only ever add to the end of the queues: after any run
    of declarations, thrown or not, the setup actions, the attach hooks
    and the removal callbacks queued before are all still there, in the
    same order and at the front, and the blueprint reports the same
    origin. *)
Theorem declarations_only_append
    (ToPrimitive : Val -> Prim) (select : string -> JQ)
    (innerHTML : string -> list Node) (outerHTML : Node -> string)
    (ds : list Decl) (bp : Blueprint) :
  queues_kept bp (declare_all ToPrimitive select innerHTML outerHTML ds bp).
Proof. apply queues_declare_all. Qed.

#[local] Set Warnings "-clear-no-such-hyp".

Section Tables.

Variable ToPrimitive : Val -> Prim.
Variable select : string -> JQ.
Variable innerHTML : string -> list Node.
Variable outerHTML : Node -> string.

Local Abbreviation declare' := (declare ToPrimitive select innerHTML outerHTML).
Local Abbreviation Built' := (Built ToPrimitive select innerHTML outerHTML).

(** *** The argument tables *)

Lemma args_step_refl bp : args_step bp bp.
Proof. by intros H. Qed.

Lemma args_step_trans a b c : args_step a b -> args_step b c -> args_step a c.
Proof. unfold args_step. tauto. Qed.

Lemma args_step_lockName name shared : along args_step (lockName name shared).
Proof.
  intros bp. rewrite lockName_unfold. destruct (_ && _); intros H; exact H.
Qed.

Lemma args_step_addArgument name spec : along args_step (addArgument name spec).
Proof.
  intros bp H. pose proof H as (Hres & Hinh & Hone & Hid & Has).
  rewrite addArgument_unfold.
  destruct (truthy (forbidden spec)); case_bool_decide as Hin;
    cbn [state_of]; try exact H.
  - split; [|split; [|split; [|split]]]; cbn [noArgs allowArgs assignArgs set_args];
      try assumption.
    + intros n Hn. apply elem_of_union_r. by apply Hres.
    + intros n Hn. destruct (Hinh n Hn) as [H1 H2].
      split; [by apply elem_of_union_r | exact H2].
    + intros n Ha Hn. apply elem_of_union in Hn as [Hn|Hn]; [|by apply Hone].
      apply elem_of_singleton in Hn as ->. contradiction.
  - assert (Hne : name <> "id").
    { intros ->. apply Hin, Hres. unfold reserved. rewrite !elem_of_cons. tauto. }
    split; [|split; [|split; [|split]]]; cbn [noArgs allowArgs assignArgs set_args];
      try assumption.
    + intros n Hn. destruct (Hinh n Hn) as [H1 H2].
      split; [exact H1 | by apply elem_of_union_r].
    + intros n Ha Hn. apply elem_of_union in Ha as [Ha|Ha]; [|by apply Hone].
      apply elem_of_singleton in Ha as ->. contradiction.
    + by apply elem_of_union_r.
    + unfold prop. rewrite lookup_insert_ne by done. exact Has.
Qed.

Lemma args_wf_new org : args_wf (jRna org).
Proof.
  split; [|split; [|split; [|split; [|reflexivity]]]];
    unfold jRna; cbn [noArgs allowArgs].
  - intros n Hn. apply elem_of_union_l. by apply elem_of_list_to_set.
  - intros n Hn. split; by apply elem_of_union_r.
  - intros n Ha _. apply elem_of_union in Ha as [Ha|Ha]; [left|by right].
    by apply elem_of_singleton in Ha.
  - apply elem_of_union_l. by apply elem_of_singleton.
Qed.

Lemma Built_args_wf bp : Built' bp -> args_wf bp.
Proof.
  induction 1 as [org|bp d _ IH]; [apply args_wf_new|].
  apply (declare_along _ _ _ _ args_step args_step_refl args_step_trans
           args_step_lockName args_step_addArgument); try exact IH;
    intros; intros H; exact H.
Qed.

(** [args] stops at the first forbidden name and keeps what it declared
    before it. *)
Lemma args_stops_at bp (pre post : list string) bad :
  (forall n, n ∈ pre -> n ∉ noArgs bp) -> bad ∈ noArgs bp ->
  exists bp',
    args (pre ++ bad :: post)%list bp
    = Throw ("Forbidden argument name: " +:+ bad +:+ " - jRna@" +:+ origin bp)
            bp' /\
    noArgs bp' = noArgs bp /\
    allowArgs bp' = list_to_set pre ∪ allowArgs bp /\
    (forall n, n ∈ pre -> prop (assignArgs bp') n = VBool true) /\
    (forall n, n ∉ pre -> prop (assignArgs bp') n = prop (assignArgs bp) n).
Proof using Type.
  revert bp. induction pre as [|x pre IH]; intros bp Hpre Hbad.
  - exists bp. simpl. unfold args. simpl. unfold bind.
    rewrite addArgument_unfold. simpl. rewrite bool_decide_eq_true_2 by done.
    repeat split; try reflexivity.
    + simpl. by rewrite (left_id_L ∅ (∪)).
    + intros n Hn. by apply elem_of_nil in Hn.
  - set (bp1 := set_args (noArgs bp) ({[ x ]} ∪ allowArgs bp)
                         (<[x := VBool true]> (assignArgs bp)) bp).
    destruct (IH bp1) as (bp' & Hrun & Hno & Hal & Has & Hkeep).
    { intros n Hn. apply Hpre. by apply elem_of_cons; right. }
    { exact Hbad. }
    exists bp'. repeat split.
    + unfold args in Hrun |- *. simpl. unfold bind at 1.
      rewrite addArgument_unfold. simpl.
      rewrite bool_decide_eq_false_2 by (apply Hpre; apply elem_of_cons; by left).
      exact Hrun.
    + exact Hno.
    + rewrite Hal. simpl.
      by rewrite (comm_L (∪) {[x]} (list_to_set pre)), (assoc_L (∪)).
    + intros n Hn. destruct (decide (n ∈ pre)) as [Hp|Hp]; [by apply Has|].
      apply elem_of_cons in Hn as [->|Hn]; [|contradiction].
      rewrite Hkeep by done. unfold prop. simpl. by rewrite lookup_insert_eq.
    + intros n Hn. apply not_elem_of_cons in Hn as [Hne Hn].
      rewrite Hkeep by done. unfold prop. simpl. by rewrite lookup_insert_ne.
Qed.

(** *** The initial values *)

Lemma assoc_set_fresh {A} name (v : A) (l : list (string * A)) :
  name ∉ (l.*1) -> assoc_set name v l = (l ++ [(name, v)])%list.
Proof.
  induction l as [|[k x] rest IH]; intros Hn; [reflexivity|].
  simpl in *. apply not_elem_of_cons in Hn as [Hne Hn].
  destruct (String.eqb k name) eqn:E; [apply String.eqb_eq in E; congruence|].
  by rewrite IH.
Qed.

Lemma init_declared bp bp1 name m (f : Factory) :
  init_wf bp -> lockName name undefined bp = Ok tt bp1 ->
  (name ∉ ((_init bp).*1)) /\
  init_wf (set_init m (assoc_set name f (_init bp1)) bp1).
Proof.
  intros (Hnd & Hk) Hl. rewrite lockName_unfold in Hl.
  destruct (truthy (prop (_known bp) name)
            && negb (strict_eq (prop (_known bp) name) undefined)) eqn:Hc;
    [discriminate|]. injection Hl as <-.
  assert (Hn : name ∉ ((_init bp).*1)).
  { intros Hin. rewrite (Hk name Hin) in Hc. discriminate. }
  split; [exact Hn|]. simpl. rewrite assoc_set_fresh by exact Hn.
  split; simpl.
  - rewrite fmap_app. simpl. apply NoDup_app. split; [exact Hnd|]. split.
    + intros x Hx Hx'. apply list_elem_of_singleton in Hx' as ->. contradiction.
    + apply NoDup_singleton.
  - intros k Hin. rewrite fmap_app in Hin. simpl in Hin. unfold prop.
    apply elem_of_app in Hin as [Hin|Hin].
    + rewrite lookup_insert_ne by (intros <-; contradiction). by apply Hk.
    + apply list_elem_of_singleton in Hin as ->. by rewrite lookup_insert_eq.
Qed.

Lemma init_step_refl bp : init_step bp bp.
Proof. by intros H. Qed.

Lemma init_step_trans a b c : init_step a b -> init_step b c -> init_step a c.
Proof. unfold init_step. tauto. Qed.

Lemma init_step_lockName name shared : along init_step (lockName name shared).
Proof.
  intros bp (Hnd & Hk). rewrite lockName_unfold.
  destruct (truthy (prop (_known bp) name)
            && negb (strict_eq (prop (_known bp) name) shared)) eqn:Hc;
    [by split|].
  split; [exact Hnd|]. intros k Hin. simpl. unfold prop.
  destruct (decide (name = k)) as [<-|Hne].
  - rewrite lookup_insert_eq. simpl. rewrite (Hk name Hin) in Hc. simpl in Hc.
    apply negb_false_iff, bool_decide_eq_true_1 in Hc. by rewrite <- Hc.
  - rewrite lookup_insert_ne by done. by apply Hk.
Qed.

Lemma init_step_addArgument name spec : along init_step (addArgument name spec).
Proof.
  intros bp H. rewrite addArgument_unfold.
  destruct (truthy (forbidden spec)); case_bool_decide; exact H.
Qed.

Lemma init_step_declare d : along init_step (declare' d).
Proof.
  destruct (is_init_decl d) eqn:E.
  - intros bp Hwf. destruct d; try discriminate; simpl.
    + unfold def, bind.
      destruct (lockName name undefined bp) as [[] bp1|msg bp1] eqn:Hl.
      * destruct (is_function action); simpl;
          eapply (init_declared bp bp1 name _ (FDef action) Hwf Hl).
      * rewrite lockName_unfold in Hl. destruct (_ && _); [|discriminate].
        by injection Hl as _ <-.
    + unfold init, init_with, bind.
      destruct (lockName name undefined bp) as [[] bp1|msg bp1] eqn:Hl.
      * simpl. eapply (init_declared bp bp1 name _ (FUser action) Hwf Hl).
      * rewrite lockName_unfold in Hl. destruct (_ && _); [|discriminate].
        by injection Hl as _ <-.
    + unfold stickyState, bind at 1.
      destruct (negb (is_undefined initial) && _); [exact Hwf|].
      unfold ret, bind at 1, modify, init_with, bind.
      set (bp0 := set_init ({[name]} ∪ isMethod bp) (_init bp) bp).
      assert (Hwf0 : init_wf bp0) by exact Hwf.
      destruct (lockName name undefined bp0) as [[] bp1|msg bp1] eqn:Hl.
      * simpl. eapply (init_declared bp0 bp1 name _ _ Hwf0 Hl).
      * rewrite lockName_unfold in Hl. destruct (_ && _); [|discriminate].
        by injection Hl as _ <-.
  - apply (declare_along_other _ _ _ _ init_step init_step_refl init_step_trans
             init_step_lockName init_step_addArgument); try exact E;
      intros; intros H; exact H.
Qed.

Lemma Built_init_wf bp : Built' bp -> init_wf bp.
Proof.
  induction 1 as [org|bp d _ IH].
  - split; [apply NoDup_nil_2|]. intros k Hk. by apply elem_of_nil in Hk.
  - by apply (init_step_declare d bp).
Qed.

End Tables.

(** On every blueprint built from [new jRna()]: [id] reads as allowed
    and assignable; the reserved names read as forbidden; the names
    every object inherits read as both allowed and forbidden, so that
    [attach] takes them and [addArgument] refuses them; and apart from
    [id] and those no name reads as both. *)
Theorem built_argument_tables
    (ToPrimitive : Val -> Prim) (select : string -> JQ)
    (innerHTML : string -> list Node) (outerHTML : Node -> string)
    (bp : Blueprint) :
  Built ToPrimitive select innerHTML outerHTML bp ->
  "id" ∈ allowArgs bp /\
  prop (assignArgs bp) "id" = VBool true /\
  (forall name, name ∈ reserved -> name ∈ noArgs bp) /\
  (forall name, name ∈ inherited_names ->
                name ∈ noArgs bp /\ name ∈ allowArgs bp) /\
  (forall name, name ∈ allowArgs bp -> name ∈ noArgs bp ->
                name = "id" \/ name ∈ inherited_names).
Proof.
  intros HB.
  destruct (Built_args_wf _ _ _ _ bp HB) as (H1 & H2 & H3 & H4 & H5).
  auto.
Qed.

Lemma built_argument_tables_witness :
  let bp := declare_all plain_object (fun _ => []) (fun _ => []) (fun _ => "")
              [DArgs ["size"; "id"]; DElement "header" None;
               DAddArgument "size" (mkArgSpec (VBool true) undefined)]
              (jRna "here") in
  "id" ∈ allowArgs bp /\ prop (assignArgs bp) "id" = VBool true /\
  ("toString" ∈ noArgs bp /\ "toString" ∈ allowArgs bp).
Proof.
  intros bp.
  destruct (built_argument_tables plain_object (fun _ => []) (fun _ => [])
              (fun _ => "") bp) as (H1 & H2 & _ & H4 & _).
  - unfold bp, declare_all. cbn [foldl]. do 3 apply Built_declare.
    apply Built_new.
  - split; [assumption|]. split; [assumption|]. apply H4.
    apply (bool_decide_unpack _). vm_compute. exact I.
Defined.

(** [args(...)] is not all-or-nothing: it throws at the first name that
    is forbidden, and the names listed before it stay declared, allowed
    and assignable, while the forbidden table is as before. *)
Theorem args_keeps_names_before_the_throw
    (bp : Blueprint) (pre post : list string) (bad : string) :
  (forall n, n ∈ pre -> n ∉ noArgs bp) -> bad ∈ noArgs bp ->
  exists bp',
    args (pre ++ bad :: post)%list bp
    = Throw ("Forbidden argument name: " +:+ bad +:+ " - jRna@" +:+ origin bp)
            bp' /\
    noArgs bp' = noArgs bp /\
    allowArgs bp' = list_to_set pre ∪ allowArgs bp /\
    (forall n, n ∈ pre -> prop (assignArgs bp') n = VBool true) /\
    (forall n, n ∉ pre -> prop (assignArgs bp') n = prop (assignArgs bp) n).
Proof. intros Hpre Hbad. exact (args_stops_at bp pre post bad Hpre Hbad). Qed.

Lemma args_keeps_names_before_the_throw_witness :
  exists bp',
    args ["size"; "remove"; "value"] (jRna "here")
    = Throw "Forbidden argument name: remove - jRna@here" bp' /\
    "size" ∈ allowArgs bp' /\ "value" ∉ allowArgs bp'.
Proof.
  destruct (args_keeps_names_before_the_throw (jRna "here") ["size"] ["value"]
              "remove") as (bp' & Hrun & _ & Hal & _).
  - intros n Hn. apply list_elem_of_singleton in Hn as ->.
    apply (bool_decide_unpack _). vm_compute. exact I.
  - apply (bool_decide_unpack _). vm_compute. exact I.
  - exists bp'. split; [exact Hrun|]. rewrite Hal. split.
    + apply elem_of_union_l. simpl. apply elem_of_union_l.
      by apply elem_of_singleton.
    + apply (bool_decide_unpack _). vm_compute. exact I.
Defined.

(** On every blueprint built from [new jRna()] no initial value is
    registered twice, and a name that has one is taken for good: a later
    [def], [init] or [stickyState] of that name fails and leaves the
    registered initial values as they are. *)
Theorem initial_values_are_declared_once
    (ToPrimitive : Val -> Prim) (select : string -> JQ)
    (innerHTML : string -> list Node) (outerHTML : Node -> string)
    (bp : Blueprint) :
  Built ToPrimitive select innerHTML outerHTML bp ->
  NoDup ((_init bp).*1) /\
  forall d name,
    name ∈ ((_init bp).*1) -> is_init_decl d = true ->
    declared_name d = Some name ->
    is_ok (declare ToPrimitive select innerHTML outerHTML d bp) = false /\
    _init (state_of (declare ToPrimitive select innerHTML outerHTML d bp))
    = _init bp.
Proof.
  intros HB. destruct (Built_init_wf _ _ _ _ bp HB) as (Hnd & Hk).
  split; [exact Hnd|]. intros d name Hin Hd Hname.
  assert (Hl : forall b, _known b = _known bp ->
             lockName name undefined b
             = Throw ("Property name already in use: " +:+ name +:+ " - jRna@"
                      +:+ origin b) b).
  { intros b Hb. apply lockName_locked; rewrite Hb, (Hk name Hin);
      [reflexivity | discriminate]. }
  destruct d; try discriminate; simpl in Hname; injection Hname as ->; simpl.
  - unfold def, bind. rewrite (Hl bp eq_refl). by split.
  - unfold init, init_with, bind. rewrite (Hl bp eq_refl). by split.
  - unfold stickyState, bind at 1.
    destruct (negb (is_undefined initial) && _); [by split|].
    unfold ret, bind at 1, modify, init_with, bind. rewrite Hl by reflexivity.
    by split.
Qed.

Lemma initial_values_are_declared_once_witness :
  let bp := state_of (def "hours" (VNum 8) (jRna "here")) in
  is_ok (init "hours" (fun _ => ret (VNum 0)) bp) = false /\
  (_init (state_of (init "hours" (fun _ => ret (VNum 0)) bp))).*1 = ["hours"].
Proof.
  intros bp.
  destruct (initial_values_are_declared_once plain_object (fun _ => [])
              (fun _ => []) (fun _ => "") bp) as (_ & H).
  - apply (Built_declare _ _ _ _ _ (DDef "hours" (VNum 8))), Built_new.
  - destruct (H (DInit "hours" (fun _ => ret (VNum 0))) "hours") as (H1 & H2);
      [| reflexivity | reflexivity |].
    + apply list_elem_of_singleton. reflexivity.
    + split; [exact H1|]. cbn [declare] in H2. rewrite H2. reflexivity.
Defined.

(** [stickyState] marks its name as a method before it locks it.  So a
    [stickyState] of a name that is already taken throws "Property name
    already in use" and still leaves the name marked; when the name is a
    text binding that is also an assignable argument, the blueprint left
    behind no longer hands the argument to the setter: it calls what the
    property holds, which throws unless that is a function, where the
    blueprint before wrote the argument, a value that is neither
    [undefined] nor a function, to the element. *)
Theorem failed_stickyState_still_marks_a_method
    (StringToNumber : string -> option Z) (ToPrimitive : Val -> Prim)
    (call_fn : nat -> Val -> list Val -> M World Val)
    (bp : Blueprint) (name : string) (action_hash : gmap string Val)
    (initial : Val) :
  truthy (prop (_known bp) name) = true ->
  is_undefined initial = true \/
  truthy (prop action_hash (to_string ToPrimitive initial)) = true ->
  let bp' := set_init ({[ name ]} ∪ isMethod bp) (_init bp) bp in
  stickyState ToPrimitive name action_hash initial bp
  = Throw ("Property name already in use: " +:+ name +:+ " - jRna@"
           +:+ origin bp) bp' /\
  forall v w i raw target old,
    inst w = Some i ->
    props i !! name = Some (SOutput raw target old) ->
    name ∈ allowArgs bp -> truthy (prop (assignArgs bp) name) = true ->
    (is_function old = false ->
     apply_arg StringToNumber ToPrimitive call_fn bp' (name, v) w
     = Throw (TypeError "inst[key] is not a function") w) /\
    (forall f, old = VF f ->
     apply_arg StringToNumber ToPrimitive call_fn bp' (name, v) w
     = match call_fn f (VO (self i)) [v] w with
       | Ok _ w' => Ok tt w'
       | Throw e w' => Throw e w'
       end) /\
    (name ∉ isMethod bp -> v <> undefined -> is_function v = false ->
     apply_arg StringToNumber ToPrimitive call_fn bp (name, v) w
     = Ok tt (mkWorld (Some (set_prop name (SOutput raw target v) i))
                (effects w ++ [if raw then EHtml target v
                               else EText target v])%list)).
Proof.
  intros Hk Hinit bp'. split.
  - unfold stickyState, bind at 1.
    assert (Hc : negb (is_undefined initial)
                 && negb (truthy (prop action_hash (to_string ToPrimitive initial)))
                 = false).
    { destruct Hinit as [-> | ->]; [reflexivity | apply andb_false_r]. }
    rewrite Hc. unfold ret, bind at 1, modify, init_with, bind. fold bp'.
    rewrite lockName_locked; [reflexivity | exact Hk |].
    intros Hu. change (_known bp') with (_known bp) in Hu.
    rewrite <- Hu in Hk. discriminate.
  - intros v w i raw target old Hi Hs Ha Has.
    assert (Hstep : apply_arg StringToNumber ToPrimitive call_fn bp' (name, v) w
                    = call_method StringToNumber ToPrimitive call_fn (origin bp)
                                  name v w).
    { unfold apply_arg. simpl. rewrite bool_decide_eq_true_2 by exact Ha.
      simpl. rewrite Has. simpl.
      by rewrite bool_decide_eq_true_2
        by (apply elem_of_union_l; by apply elem_of_singleton). }
    split; [|split].
    + intros Hold. rewrite Hstep.
      unfold call_method, bind, get, slot_of. rewrite Hi. simpl. rewrite Hs.
      destruct old as [p|r|r]; try discriminate; reflexivity.
    + intros f ->. rewrite Hstep.
      unfold call_method, bind, get, slot_of, inst_val. rewrite Hi. simpl.
      rewrite Hs. destruct (call_fn f (VO (self i)) [v] w); reflexivity.
    + intros Hm Hv _. unfold apply_arg. simpl.
      rewrite bool_decide_eq_true_2 by exact Ha. simpl. rewrite Has. simpl.
      rewrite bool_decide_eq_false_2 by exact Hm.
      unfold assign_prop, bind, get, slot_of. rewrite Hi. simpl. rewrite Hs.
      rewrite (is_undefined_false _ Hv).
      unfold emit, modify, on_inst. simpl. rewrite Hi. reflexivity.
Qed.

Lemma failed_stickyState_still_marks_a_method_witness :
  let bp := state_of (args ["title"] (state_of (output "title" None (jRna "here")))) in
  let bp' := state_of (stickyState plain_object "title" {[ "on" := VF 3 ]}
                         undefined bp) in
  let w := mkWorld (Some (mkInst 7 [sample_container] ∅
                            {[ "title" := SOutput false [sample_container]
                                                  undefined ]} [])) [] in
  is_ok (apply_arg decimal_to_number plain_object log_call bp'
                   ("title", VStr "x") w) = false /\
  effects (state_of (apply_arg decimal_to_number plain_object log_call bp
                               ("title", VStr "x") w))
  = [EText [sample_container] (VStr "x")].
Proof.
  intros bp bp' w.
  destruct (failed_stickyState_still_marks_a_method decimal_to_number
              plain_object log_call bp "title" {[ "on" := VF 3 ]} undefined)
    as (Hthrow & Hcall); [reflexivity | by left |].
  destruct (Hcall (VStr "x") w
              (mkInst 7 [sample_container] ∅
                 {[ "title" := SOutput false [sample_container] undefined ]} [])
              false [sample_container] undefined) as (H1 & _ & H2);
    [reflexivity | reflexivity | | reflexivity |].
  { apply (bool_decide_unpack _). vm_compute. exact I. }
  split.
  - unfold bp'. rewrite Hthrow. cbn [state_of]. rewrite H1; reflexivity.
  - rewrite H2; [reflexivity | | discriminate | reflexivity].
    apply (bool_decide_unpack _). vm_compute. exact I.
Defined.

(** ** Listeners *)

Lemma after_events_cons {S A} (h : M S A) (hs : list (M S A)) (s : S) :
  after_events (h :: hs) s = after_events hs (state_of (h s)).
Proof. reflexivity. Qed.

Section Listeners.

Variable call_fn : nat -> Val -> list Val -> M World Val.
Variable getprop : World -> string -> Val.
Variable dom_val : JQ -> World -> Val.

Local Abbreviation invoke' := (invoke call_fn getprop).
Local Abbreviation fire_sticky' := (fire_sticky call_fn getprop dom_val).
Local Abbreviation fire_toggle' := (fire_toggle call_fn getprop).
Local Abbreviation truthy_at := (prop_truthy dom_val).

Implicit Types (w : World) (ev : Val) (bound : Bound).

Lemma fire_sticky_locked name bound ev w :
  truthy_at name w = true ->
  fire_sticky' name bound ev w = Ok (VBool false) w.
Proof. intros H. unfold fire_sticky, bind, get. by rewrite H. Qed.

Lemma fire_sticky_free name bound ev w :
  truthy_at name w = false ->
  state_of (fire_sticky' name bound ev w)
  = state_of (invoke' bound [ev] (state_of (assign_prop name (VBool true) w))).
Proof.
  intros H. unfold fire_sticky, bind at 1, get. rewrite H. simpl.
  unfold bind at 1.
  destruct (assign_prop name (VBool true) w) as [[] w1|e w1] eqn:Ha.
  - simpl. unfold bind. destruct (invoke' bound [ev] w1); reflexivity.
  - exfalso. unfold assign_prop, bind, get in Ha.
    destruct (slot_of name w) as [[]|]; discriminate.
Qed.

Lemma assign_true_locks name w i :
  inst w = Some i -> plain_slot (props i !! name) ->
  truthy_at name (state_of (assign_prop name (VBool true) w)) = true.
Proof.
  intros Hi Hp. unfold assign_prop, bind, get, slot_of. rewrite Hi. simpl.
  destruct (props i !! name) as [[]|]; simpl in Hp; try contradiction;
    unfold modify, on_inst, prop_truthy, slot_of; simpl; rewrite Hi; simpl;
    by rewrite lookup_insert_eq.
Qed.

Lemma sticky_locked_events name bound (evs : list Val) w :
  truthy_at name w = true ->
  after_events (fire_sticky' name bound <$> evs) w = w.
Proof.
  intros H. induction evs as [|ev evs IH]; [reflexivity|].
  simpl. rewrite fire_sticky_locked by exact H. exact IH.
Qed.

Lemma fire_toggle_unfold bound_on bound_off ev (on : bool) w :
  fire_toggle' bound_on bound_off ev (on, w)
  = match invoke' (if negb on then bound_on else bound_off) [ev] w with
    | Ok _ w' => Ok (VBool false) (negb on, w')
    | Throw e w' => Throw e (negb on, w')
    end.
Proof.
  unfold fire_toggle, bind, get, modify, in_snd, ret. simpl.
  destruct (invoke' _ [ev] w); reflexivity.
Qed.

Lemma toggle_events_flag bound_on bound_off (evs : list Val) (on : bool) w :
  fst (after_events (fire_toggle' bound_on bound_off <$> evs) (on, w))
  = if Nat.even (List.length evs) then on else negb on.
Proof.
  revert on w. induction evs as [|ev evs IH]; intros on w; [reflexivity|].
  rewrite fmap_cons, after_events_cons, fire_toggle_unfold.
  destruct (invoke' _ [ev] w) as [r w'|e w']; cbn [state_of]; rewrite IH;
    cbn [List.length]; rewrite Nat.even_succ, <- Nat.negb_even;
    destruct (Nat.even (List.length evs)), on; reflexivity.
Qed.

End Listeners.

(** A sticky click runs its callback once.  With the lock free, an
    activation sets the lock and runs the callback; if the callback
    leaves a set lock set, then however many activations follow, the
    world is as the first one left it.  With the lock set, activations
    do nothing at all. *)
Theorem sticky_click_fires_once
    (call_fn : nat -> Val -> list Val -> M World Val)
    (getprop : World -> string -> Val) (dom_val : JQ -> World -> Val)
    (name : string) (bound : Bound) (w : World) (i : Inst) :
  inst w = Some i -> plain_slot (props i !! name) ->
  (forall ev w', prop_truthy dom_val name w' = true ->
     prop_truthy dom_val name
       (state_of (invoke call_fn getprop bound [ev] w')) = true) ->
  (prop_truthy dom_val name w = true ->
   forall evs,
     after_events (fire_sticky call_fn getprop dom_val name bound <$> evs) w
     = w) /\
  (prop_truthy dom_val name w = false ->
   forall ev evs,
     after_events (fire_sticky call_fn getprop dom_val name bound
                     <$> ev :: evs) w
     = state_of (invoke call_fn getprop bound [ev]
                   (state_of (assign_prop name (VBool true) w)))).
Proof.
  intros Hi Hp Hkeep. split.
  - intros Hl evs. by apply sticky_locked_events.
  - intros Hf ev evs. rewrite fmap_cons, after_events_cons.
    rewrite (fire_sticky_free call_fn getprop dom_val name bound ev w Hf).
    apply sticky_locked_events, Hkeep.
    by apply (assign_true_locks dom_val name w i).
Qed.

(** The toggle flips on every activation, whatever its callbacks do:
    an activation runs the "on" callback when the flag was off and the
    "off" callback when it was on, the flag is flipped even when the
    callback throws, and after any run of activations the flag is back
    where it was exactly when their number is even. *)
Theorem toggle_alternates
    (call_fn : nat -> Val -> list Val -> M World Val)
    (getprop : World -> string -> Val)
    (bound_on bound_off : Bound) (on : bool) (w : World) :
  (forall ev,
     fire_toggle call_fn getprop bound_on bound_off ev (on, w)
     = match invoke call_fn getprop (if negb on then bound_on else bound_off)
                    [ev] w with
       | Ok _ w' => Ok (VBool false) (negb on, w')
       | Throw e w' => Throw e (negb on, w')
       end) /\
  (forall evs,
     fst (after_events (fire_toggle call_fn getprop bound_on bound_off <$> evs)
                       (on, w))
     = if Nat.even (List.length evs) then on else negb on).
Proof.
  split.
  - intros ev. apply fire_toggle_unfold.
  - intros evs. apply toggle_events_flag.
Qed.

Lemma sticky_click_fires_once_witness :
  let w := mkWorld (Some (mkInst 7 [sample_container] ∅ ∅ [])) [] in
  let fire := fire_sticky log_call (fun _ _ => undefined) (fun _ _ => VStr "")
                "editLock" (BBind 3 (VO 7)) in
  effects (after_events (fire <$> [VStr "click"; VStr "click"; VStr "click"]) w)
  = [ECall 3 (VO 7) [VStr "click"]].
Proof.
  intros w fire.
  destruct (sticky_click_fires_once log_call (fun _ _ => undefined)
              (fun _ _ => VStr "") "editLock" (BBind 3 (VO 7)) w
              (mkInst 7 [sample_container] ∅ ∅ []) eq_refl I) as (_ & H).
  - intros ev w' Hl. exact Hl.
  - unfold fire. rewrite (H eq_refl). reflexivity.
Defined.

(** ** Removing and re-parenting an instance *)

Section Removal.

Variable call_fn : nat -> Val -> list Val -> M World Val.
Variable dom_val : JQ -> World -> Val.
Variable iterate : Val -> World -> option (list Val).

Local Abbreviation callbacks_at := (removal_callbacks dom_val iterate).
Local Abbreviation loop := (removal_loop call_fn dom_val iterate).

Lemma call_removal_keeps (cbs : list Val) this cb w :
  (forall f w', callbacks_at w' = Some cbs ->
     callbacks_at (state_of (call_fn f this [] w')) = Some cbs) ->
  callbacks_at w = Some cbs ->
  callbacks_at (state_of (call_removal call_fn this cb w)) = Some cbs.
Proof.
  intros Hstable Hw. unfold call_removal.
  destruct cb as [p|r|f]; try exact Hw.
  unfold bind. specialize (Hstable f w Hw).
  destruct (call_fn f this [] w); exact Hstable.
Qed.

Lemma removal_loop_runs (cbs : list Val) this :
  (forall f w', callbacks_at w' = Some cbs ->
     callbacks_at (state_of (call_fn f this [] w')) = Some cbs) ->
  forall (rest : list Val) (k fuel : nat) w,
    callbacks_at w = Some cbs ->
    drop k cbs = rest ->
    (List.length rest < fuel)%nat ->
    loop fuel this k w
    = (run! for_each (call_removal call_fn this) rest in ret true) w.
Proof.
  intros Hstable rest. induction rest as [|cb rest IH];
    intros k fuel w Hw Hdrop Hfuel;
    (destruct fuel as [|fuel]; [simpl in Hfuel; lia|]);
    simpl; unfold bind at 1, get; rewrite Hw.
  - assert (Hk : cbs !! k = None).
    { apply lookup_ge_None.
      assert (Hl : List.length (drop k cbs) = 0%nat) by (by rewrite Hdrop).
      rewrite length_drop in Hl. lia. }
    rewrite Hk. reflexivity.
  - assert (Hk : cbs !! k = Some cb).
    { rewrite <- (Nat.add_0_r k), <- lookup_drop, Hdrop. reflexivity. }
    rewrite Hk. unfold bind.
    pose proof (call_removal_keeps cbs this cb w Hstable Hw) as Hkeep.
    destruct (call_removal call_fn this cb w) as [[] w1|e w1]; [|reflexivity].
    simpl in Hkeep.
    rewrite (IH (S k) fuel w1 Hkeep); [reflexivity| |simpl in Hfuel; lia].
    rewrite (drop_S _ _ _ Hk) in Hdrop. by injection Hdrop.
Qed.

End Removal.

(** [inst.remove()] calls the removal callbacks in the order of the
    list, each with the instance as receiver, and only then removes the
    container; when a callback throws, the ones after it are not called
    and the container stays.  This holds when no callback changes the
    list and the loop is given more turns than the list is long.  The
    list of a new instance is the blueprint's [onRemove] callbacks in
    the order they were registered. *)
Theorem remove_runs_callbacks_in_order
    (call_fn : nat -> Val -> list Val -> M World Val)
    (dom_val : JQ -> World -> Val)
    (iterate : Val -> World -> option (list Val))
    (dom_remove : JQ -> M World unit)
    (ref fuel : nat) (cbs : list Val) (w : World) :
  removal_callbacks dom_val iterate w = Some cbs ->
  (forall f w', removal_callbacks dom_val iterate w' = Some cbs ->
     removal_callbacks dom_val iterate (state_of (call_fn f (VO ref) [] w'))
     = Some cbs) ->
  (List.length cbs < fuel)%nat ->
  inst_remove call_fn dom_val iterate dom_remove fuel ref w
  = (run! for_each (call_removal call_fn (VO ref)) cbs in
     let! w' := get in
     match inst w' with
     | Some i => run! dom_remove (container i) in ret true
     | None => throw_msg (TypeError "inst.container is undefined")
     end) w /\
  (forall e w', for_each (call_removal call_fn (VO ref)) cbs w = Throw e w' ->
     inst_remove call_fn dom_val iterate dom_remove fuel ref w = Throw e w') /\
  (forall bp c e,
     removal_callbacks dom_val iterate (mkWorld (Some (fresh_inst bp ref c)) e)
     = Some (callbacks_onRemove bp)).
Proof.
  intros Hw Hstable Hfuel.
  assert (Heq : inst_remove call_fn dom_val iterate dom_remove fuel ref w
                = (run! for_each (call_removal call_fn (VO ref)) cbs in
                   let! w' := get in
                   match inst w' with
                   | Some i => run! dom_remove (container i) in ret true
                   | None => throw_msg (TypeError "inst.container is undefined")
                   end) w).
  { unfold inst_remove, bind at 1.
    rewrite (removal_loop_runs call_fn dom_val iterate cbs (VO ref) Hstable cbs
               0 fuel w Hw eq_refl Hfuel).
    unfold bind.
    destruct (for_each (call_removal call_fn (VO ref)) cbs w) as [[] w1|e w1];
      reflexivity. }
  split; [exact Heq|]. split.
  - intros e w' Hthrow. rewrite Heq. unfold bind at 1. by rewrite Hthrow.
  - intros bp c e. reflexivity.
Qed.

Lemma remove_runs_callbacks_in_order_witness :
  let bp := state_of (onRemove (VF 2) (state_of (onRemove (VF 1) (jRna "here")))) in
  let w := mkWorld (Some (fresh_inst bp 7 [sample_container])) [] in
  inst_remove log_call (fun _ _ => VStr "") (fun _ _ => None)
              (fun q => emit (EVal q (VStr "removed"))) 3 7 w
  = Ok true (mkWorld (Some (fresh_inst bp 7 [sample_container]))
               [ECall 1 (VO 7) []; ECall 2 (VO 7) [];
                EVal [sample_container] (VStr "removed")]).
Proof.
  intros bp w.
  destruct (remove_runs_callbacks_in_order log_call (fun _ _ => VStr "")
              (fun _ _ => None) (fun q => emit (EVal q (VStr "removed")))
              7 3 [VF 1; VF 2] w) as (H & _).
  - reflexivity.
  - intros f w' Hw'. exact Hw'.
  - simpl. lia.
  - rewrite H. reflexivity.
Defined.

(** The blueprint's [appendTo(element, args)] spawns first and looks at
    the parent afterwards: what [spawn] throws it throws; when the
    parent is not one node it throws once the instance is attached and
    its hooks have run, the world staying as [spawn] left it; otherwise
    the container of the new instance is appended to the parent and the
    instance returned. *)
Theorem appendTo_checks_the_parent_last
    (call_fn : nat -> Val -> list Val -> M World Val)
    (select : string -> JQ) (innerHTML : string -> list Node)
    (StringToNumber : string -> option Z) (ToPrimitive : Val -> Prim)
    (dom_append : JQ -> JQ -> M World unit)
    (bp : Blueprint) (ref : nat) (parent : ElemArg) (args : Args) (w : World) :
  let appendTo' :=
    appendTo call_fn select innerHTML StringToNumber ToPrimitive dom_append in
  let spawn' := spawn StringToNumber ToPrimitive call_fn select innerHTML in
  (forall e w1, spawn' bp ref args w = Throw e w1 ->
     appendTo' bp ref parent args w = Throw e w1) /\
  (forall v w1, spawn' bp ref args w = Ok v w1 ->
     (forall n, parent <> AJQ [n] /\
                forall sel, parent = AVal (VStr sel) -> sel <> "" ->
                            select sel <> [n]) ->
     exists e, appendTo' bp ref parent args w = Throw e w1) /\
  (forall v w1 i n, spawn' bp ref args w = Ok v w1 -> inst w1 = Some i ->
     parent = AJQ [n] \/
     (exists sel, parent = AVal (VStr sel) /\ sel <> "" /\ select sel = [n]) ->
     appendTo' bp ref parent args w
     = match dom_append [n] (container i) w1 with
       | Ok _ w2 => Ok (VO ref) w2
       | Throw e w2 => Throw e w2
       end).
Proof.
  intros appendTo' spawn'. unfold appendTo', appendTo. fold spawn'.
  split; [|split].
  - intros e w1 Hs. unfold bind. by rewrite Hs.
  - intros v w1 Hs Hbad. unfold bind at 1. rewrite Hs.
    unfold inst_appendTo, bind at 1.
    destruct (checkElement select (origin bp) parent "append to" w1)
      as [q w2|e w2] eqn:Hc.
    + apply checkElement_ok_iff in Hc as (_ & n & _ & [->|(sel & -> & Hne & Hsel)]).
      * by destruct (Hbad n) as [H _].
      * destruct (Hbad n) as [_ H]. by destruct (H sel eq_refl Hne).
    + pose proof (checkElement_state select (origin bp) parent "append to" w1)
        as Hst. rewrite Hc in Hst. simpl in Hst. subst w2. by exists e.
  - intros v w1 i n Hs Hi Hp. unfold bind at 1. rewrite Hs.
    unfold inst_appendTo, bind at 1.
    assert (Hc : checkElement select (origin bp) parent "append to" w1
                 = Ok [n] w1).
    { apply checkElement_ok_iff. split; [reflexivity|]. by exists n. }
    rewrite Hc. unfold bind, get. rewrite Hi.
    destruct (dom_append [n] (container i) w1); reflexivity.
Qed.

Lemma appendTo_checks_the_parent_last_witness :
  let bp := state_of (html plain_object (fun _ => []) sample_innerHTML
                           (VStr "<b></b>") (jRna "here")) in
  let r := appendTo log_call (fun _ => []) sample_innerHTML decimal_to_number
             plain_object (fun _ _ => ret tt) bp 7 (AVal (VStr "#nowhere")) []
             empty_world in
  is_ok r = false /\
  container <$> inst (state_of r) = Some [Element 1 [] []].
Proof.
  intros bp r.
  destruct (appendTo_checks_the_parent_last log_call (fun _ => [])
              sample_innerHTML decimal_to_number plain_object
              (fun _ _ => ret tt) bp 7 (AVal (VStr "#nowhere")) [] empty_world)
    as (_ & H & _).
  destruct (H (VO 7) (mkWorld (Some (fresh_inst bp 7 [Element 1 [] []])) []))
    as (e & He).
  - reflexivity.
  - intros n. split; [discriminate|]. intros sel _ _. discriminate.
  - unfold r. rewrite He. split; reflexivity.
Defined.

(** A template that [html()] accepted gets through the template checks
    of [spawn()]: spawning is then attaching to the one node the markup
    parses to. *)
Theorem spawn_attaches_the_template
    (StringToNumber : string -> option Z) (ToPrimitive : Val -> Prim)
    (call_fn : nat -> Val -> list Val -> M World Val)
    (select : string -> JQ) (innerHTML : string -> list Node)
    (v : Val) (bp bp' : Blueprint) :
  truthy v = true ->
  html ToPrimitive select innerHTML v bp = Ok tt bp' ->
  exists n,
    innerHTML (to_string ToPrimitive v) = [n] /\
    _html bp' = v /\
    forall ref args w,
      spawn StringToNumber ToPrimitive call_fn select innerHTML bp' ref args w
      = attach StringToNumber ToPrimitive call_fn select bp' ref (AJQ [n]) args w.
Proof.
  intros Hv Hh. rewrite html_unfold, Hv in Hh.
  destruct (innerHTML (to_string ToPrimitive v)) as [|n [|n' rest]] eqn:Hp;
    try discriminate.
  injection Hh as <-. exists n. split; [reflexivity|]. split; [reflexivity|].
  intros ref args w. unfold spawn, bind at 1. cbn [_html set_html].
  rewrite Hv. cbn [negb]. unfold ret at 1, bind at 1, parseHTML.
  rewrite Hp. reflexivity.
Qed.

Lemma spawn_attaches_the_template_witness :
  let bp := state_of (html plain_object (fun _ => []) sample_innerHTML
                           (VStr "<b></b>") (jRna "here")) in
  spawn decimal_to_number plain_object log_call (fun _ => []) sample_innerHTML
        bp 7 [] empty_world
  = Ok (VO 7) (mkWorld (Some (fresh_inst bp 7 [Element 1 [] []])) []).
Proof.
  intros bp.
  destruct (spawn_attaches_the_template decimal_to_number plain_object log_call
              (fun _ => []) sample_innerHTML (VStr "<b></b>") (jRna "here") bp
              eq_refl eq_refl) as (n & Hn & _ & H).
  rewrite H. injection Hn as <-. reflexivity.
Defined.

(** ** The title bar *)

Section Titles.

Variable ToPrimitive : Val -> Prim.

Local Abbreviation join' := (join_all ToPrimitive).
Local Abbreviation set' := (title_set ToPrimitive).

Implicit Types (t : TitleBar) (i j : nat) (v : Val).

Lemma title_set_inside i v t :
  (i < title_length t)%nat ->
  set' i v t = mkTitleBar (<[i := v]> (title_args t)) (title_own t)
                          (join' (<[i := v]> (title_args t))).
Proof.
  intros H. unfold title_set, title_update.
  by rewrite bool_decide_eq_true_2.
Qed.

Lemma title_set_outside i v t :
  (title_length t <= i)%nat ->
  set' i v t = mkTitleBar (title_args t) (<[i := v]> (title_own t))
                          (document_title t).
Proof.
  intros H. unfold title_set. rewrite bool_decide_eq_false_2 by lia.
  reflexivity.
Qed.

Lemma string_app_assoc (a b c : string) : (a +:+ b) +:+ c = a +:+ (b +:+ c).
Proof.
  induction a as [|x a IH]; [reflexivity|].
  change (String x ((a +:+ b) +:+ c) = String x (a +:+ (b +:+ c))).
  by rewrite IH.
Qed.

Lemma join_all_app (a b : list Val) : join' (a ++ b)%list = join' a +:+ join' b.
Proof.
  induction a as [|x a IH]; [reflexivity|].
  change (join' ((x :: a) ++ b)%list)
    with (join_part ToPrimitive x +:+ join' (a ++ b)%list).
  change (join' (x :: a)) with (join_part ToPrimitive x +:+ join' a).
  by rewrite IH, string_app_assoc.
Qed.

(** The joined parts after one of them is replaced: the parts before
    it, the string form of the new one, the parts after it. *)
Lemma join_all_insert i v (l : list Val) :
  (i < List.length l)%nat ->
  join' (<[i := v]> l)
  = join' (take i l) +:+ join_part ToPrimitive v +:+ join' (drop (S i) l).
Proof.
  intros Hi. rewrite insert_take_drop by exact Hi.
  rewrite join_all_app. reflexivity.
Qed.

Lemma title_length_set i v t : title_length (set' i v t) = title_length t.
Proof.
  unfold title_set, title_length. case_bool_decide; simpl; [|reflexivity].
  apply length_insert.
Qed.

Lemma title_get_set i j v t :
  title_get j (set' i v t) = if decide (i = j) then v else title_get j t.
Proof.
  unfold title_get. rewrite title_length_set.
  destruct (decide (i < title_length t)%nat) as [Hi|Hi].
  - rewrite title_set_inside by exact Hi. simpl.
    destruct (decide (i = j)) as [<-|Hne].
    + rewrite bool_decide_eq_true_2 by exact Hi.
      by rewrite list_lookup_insert_eq by exact Hi.
    + by rewrite list_lookup_insert_ne by exact Hne.
  - rewrite title_set_outside by lia. simpl.
    destruct (decide (i = j)) as [<-|Hne].
    + rewrite bool_decide_eq_false_2 by exact Hi. by rewrite lookup_insert_eq.
    + by rewrite lookup_insert_ne by exact Hne.
Qed.

End Titles.

(** Writing a part of a [documentTitle] object and reading it back
    gives what was written, the other parts read as before and the
    length does not change, whether the index is one of the parts or
    lies beyond them. *)
Theorem title_parts_read_back (ToPrimitive : Val -> Prim)
    (i j : nat) (v : Val) (t : TitleBar) :
  title_get i (title_set ToPrimitive i v t) = v /\
  (i <> j -> title_get j (title_set ToPrimitive i v t) = title_get j t) /\
  title_length (title_set ToPrimitive i v t) = title_length t.
Proof.
  split; [|split].
  - rewrite title_get_set. by destruct (decide (i = i)).
  - intros Hne. rewrite title_get_set. by destruct (decide (i = j)).
  - apply title_length_set.
Qed.

Lemma title_parts_read_back_witness :
  let t := documentTitle [VStr "jRna"; VStr " - "; VNum 0] "old" in
  title_get 1 (title_set plain_object 2 (VNum 5) t) = VStr " - ".
Proof.
  intros t.
  destruct (title_parts_read_back plain_object 2 1 (VNum 5) t) as (_ & H & _).
  rewrite H; [reflexivity | discriminate].
Defined.

(** The page title follows the parts.  Writing one of the parts sets
    the page title to all parts joined, [undefined] and [null] parts
    counting as empty: the parts before the written one, the string
    form of the written value, the parts after it; writing at an index
    beyond the parts leaves the page title and the parts alone; so once
    the title has been written it equals the joined parts after every
    further write. *)
Theorem title_follows_the_parts (ToPrimitive : Val -> Prim)
    (i : nat) (v : Val) (t : TitleBar) :
  ((i < title_length t)%nat ->
   document_title (title_set ToPrimitive i v t)
   = join_all ToPrimitive (title_args (title_set ToPrimitive i v t)) /\
   title_args (title_set ToPrimitive i v t) = <[i := v]> (title_args t) /\
   document_title (title_set ToPrimitive i v t)
   = join_all ToPrimitive (take i (title_args t))
     +:+ join_part ToPrimitive v
     +:+ join_all ToPrimitive (drop (S i) (title_args t))) /\
  ((title_length t <= i)%nat ->
   document_title (title_set ToPrimitive i v t) = document_title t /\
   title_args (title_set ToPrimitive i v t) = title_args t) /\
  (forall writes : list (nat * Val),
     document_title t = join_all ToPrimitive (title_args t) ->
     let t' := foldl (fun t w => title_set ToPrimitive w.1 w.2 t) t writes in
     document_title t' = join_all ToPrimitive (title_args t')).
Proof.
  split; [|split].
  - intros Hi. rewrite title_set_inside by exact Hi.
    split; [reflexivity|]. split; [reflexivity|].
    by apply join_all_insert.
  - intros Hi. rewrite title_set_outside by exact Hi. by split.
  - intros writes. revert t. induction writes as [|[k x] writes IH];
      intros t Ht; [exact Ht|].
    simpl. apply IH. simpl.
    destruct (decide (k < title_length t)%nat) as [Hk|Hk].
    + by rewrite title_set_inside by exact Hk.
    + by rewrite title_set_outside by lia.
Qed.

Lemma title_follows_the_parts_witness :
  let t := documentTitle [VStr "jRna"; undefined; VNum 0] "old" in
  document_title (title_set plain_object 2 (VNum 5) t) = "jRna5" /\
  document_title (title_set plain_object 3 (VNum 5) t) = "old".
Proof.
  intros t.
  destruct (title_follows_the_parts plain_object 2 (VNum 5) t) as (H & _ & _).
  destruct (title_follows_the_parts plain_object 3 (VNum 5) t) as (_ & K & _).
  destruct H as (_ & _ & H); [unfold t, title_length; simpl; lia|].
  destruct K as (K & _); [unfold t, title_length; simpl; lia|].
  rewrite H, K. split; reflexivity.
Defined.

(** ** Defaults and arguments *)

Lemma for_in_one {A} (e : string * A) : for_in [e] = [e].
Proof.
  unfold for_in. cbn [foldr]. rewrite filter_cons, filter_nil.
  destruct (array_index e.1); reflexivity.
Qed.

(** A blueprint that declares a default with [def(name, d)], [d] not a
    function and [name] neither reserved nor inherited by every object,
    and allows the argument with [args(name)]: attached without the
    argument the instance holds [d] under [name]; attached with the
    argument it holds the argument, and the default is not used.  Either
    way nothing is written to the render tree. *)
Theorem argument_overrides_default
    (StringToNumber : string -> option Z) (ToPrimitive : Val -> Prim)
    (call_fn : nat -> Val -> list Val -> M World Val) (select : string -> JQ)
    (org name : string) (d v : Val) (root : Node) (ref : nat) (w : World) :
  name ∉ reserved -> name ∉ inherited_names ->
  is_function d = false ->
  let bp := state_of (args [name] (state_of (def name d (jRna org)))) in
  let attach' := attach StringToNumber ToPrimitive call_fn select bp ref
                        (AJQ [root]) in
  (exists i, attach' [] w = Ok (VO ref) (mkWorld (Some i) (effects w)) /\
             props i !! name = Some (SData d)) /\
  (exists i, attach' [(name, v)] w = Ok (VO ref) (mkWorld (Some i) (effects w)) /\
             props i !! name = Some (SData v)).
Proof.
  intros Hr Hinh Hd bp attach'.
  assert (Hbp : exists bp', bp = bp' /\
             origin bp' = org /\ _setup bp' = [] /\ _init bp' = [(name, FDef d)] /\
             _onAttach bp' = [] /\ isMethod bp' = inherited_names /\
             name ∈ allowArgs bp' /\ prop (assignArgs bp') name = VBool true).
  { eexists. split.
    - unfold bp, def, bind. rewrite lockName_unfold.
      rewrite (fresh_name_unknown org name Hr Hinh). cbn [truthy undefined andb].
      rewrite Hd. unfold ret, modify. cbn [state_of]. unfold args.
      cbn [for_each]. unfold bind. rewrite addArgument_unfold.
      cbn [forbidden truthy undefined].
      rewrite bool_decide_eq_false_2
        by (apply (fresh_name_allowed org name Hr Hinh)).
      reflexivity.
    - simpl. repeat split; try reflexivity.
      + apply elem_of_union_l. by apply elem_of_singleton.
      + unfold prop. by rewrite lookup_insert_eq. }
  destruct Hbp as (bp' & Hbp & Ho & Hs & Hi & Hh & Hme & Hal & Has).
  unfold attach'. rewrite Hbp. clear Hbp attach' bp.
  assert (Hm : name ∉ isMethod bp') by (by rewrite Hme).
  split.
  - unfold attach, bind at 1. cbn [checkElement]. unfold ret at 1.
    unfold populate, bind, modify, ret. rewrite Hs, Hi, Hh, for_in_one.
    cbn [for_each take]. unfold bind, ret. cbv beta iota.
    rewrite initialize_def
      by (apply has_key_absent; [apply not_elem_of_nil | exact Hinh]).
    unfold assign_prop, bind, get, slot_of, modify, ret. cbn.
    eexists. split; [reflexivity|]. cbn. by rewrite lookup_insert_eq.
  - unfold attach, bind at 1. cbn [checkElement]. unfold ret at 1.
    unfold populate, bind, modify, ret. rewrite Hs, Hi, Hh, for_in_one.
    cbn [for_each take]. unfold bind, ret. cbv beta iota.
    rewrite (initialize_skipped bp' [(name, v)] name (FDef d)); 
      [| exact Hm | apply (has_key_in _ _ v); apply elem_of_cons; by left].
    unfold ret.
    unfold apply_arg. cbn [fst snd]. rewrite bool_decide_eq_true_2 by exact Hal.
    cbn [negb]. rewrite Has. cbn [truthy negb].
    rewrite bool_decide_eq_false_2 by exact Hm.
    unfold assign_prop, bind, get, slot_of, modify. cbn.
    eexists. split; [reflexivity|]. cbn. by rewrite lookup_insert_eq.
Qed.

Lemma argument_overrides_default_witness :
  let bp := state_of (args ["hours"] (state_of (def "hours" (VNum 8) (jRna "here")))) in
  let attach' := attach decimal_to_number plain_object log_call (fun _ => [])
                        bp 7 (AJQ [sample_container]) in
  (exists i, attach' [] empty_world = Ok (VO 7) (mkWorld (Some i) []) /\
             props i !! "hours" = Some (SData (VNum 8))) /\
  (exists i, attach' [("hours", VNum 3)] empty_world
             = Ok (VO 7) (mkWorld (Some i) []) /\
             props i !! "hours" = Some (SData (VNum 3))).
Proof.
  apply (argument_overrides_default decimal_to_number plain_object log_call
           (fun _ => []) "here" "hours" (VNum 8) (VNum 3) sample_container 7
           empty_world).
  - apply (bool_decide_unpack _). vm_compute. exact I.
  - apply (bool_decide_unpack _). vm_compute. exact I.
  - reflexivity.
Defined.
